(** * Verification of the EaseVerse asset scripts

    [scripts/generate_apple_icons.py] renders a catalog of icons on a
    supersampled canvas and persists them as PNG files;
    [scripts/optimize_web_assets.py] derives [*.web.png] variants of the
    PNG assets.

    Modelling conventions.
    - Python ints are [Z]; Python floats that only ever hold values of the
      form [int * 4] or [x / y] are modelled by exact rationals [Q].
      Multiplying a float by [SCALE = 4] is exact in binary floating point,
      so [int(value * SCALE)] is exactly the truncation of [4 * value].
    - PIL images are records carrying their mode, size and a symbolic
      pixel content: the fill colour given at creation, followed by the
      drawing primitives issued on it, and the resampling steps applied to
      it.  PIL's rasteriser, resampler and PNG encoder are functions of
      these, so two images with equal records are pixel-identical and
      encode to identical bytes.
    - Paths are lists of components relative to the repository root
      [ROOT]; [relative_to(ROOT)] joins them with ["/"].
    - Python objects live in a heap; a builder allocates its canvas there
      and draws on it through a reference, as [ImageDraw] does. *)

From Stdlib Require Import ZArith QArith Qabs String Ascii.
From stdpp Require Import base gmap list strings sorting pretty.

Open Scope Z_scope.

(* ------------------------------------------------------------------ *)
(** ** Constants and the coordinate scaler *)

Definition SIZE : Z := 512.
Definition SCALE : Z := 4.
Definition CANVAS : Z := SIZE * SCALE.

Definition rgba : Type := (Z * Z * Z * Z)%type.

Definition WHITE : rgba := (243, 246, 252, 255).
Definition SOFT_WHITE : rgba := (220, 228, 242, 255).
Definition BLUE : rgba := (10, 132, 255, 255).
Definition ORANGE : rgba := (255, 159, 10, 255).
Definition RED : rgba := (255, 69, 58, 255).
Definition GREEN : rgba := (52, 199, 89, 255).
Definition TRANSPARENT : rgba := (0, 0, 0, 0).

(** Python's [int(x)] on a number: truncation toward zero. *)
Definition py_int (q : Q) : Z := Z.quot (Qnum q) (Zpos (Qden q)).

(** [def _w(value: float) -> int: return int(value * SCALE)] *)
Definition _w (value : Q) : Z := py_int (value * inject_Z SCALE)%Q.

(** [def _stroke(base: float) -> int: return _w(base)] *)
Definition _stroke (base : Q) : Z := _w base.

(** Python's [round] on a number (round half to even), used to state the
    spec's contract for the scaler. *)
Definition py_round (q : Q) : Z :=
  let fl := Qnum q / Zpos (Qden q) in
  let twice_frac := 2 * (Qnum q - fl * Zpos (Qden q)) in
  match Z.compare twice_frac (Zpos (Qden q)) with
  | Lt => fl
  | Gt => fl + 1
  | Eq => if Z.even fl then fl else fl + 1
  end.

(* ------------------------------------------------------------------ *)
(** ** PIL images, drawing primitives and the heap *)

Definition box : Type := (Z * Z * Z * Z)%type.

(** The [ImageDraw] primitives used by the builders, with PIL's argument
    names; omitted keyword arguments take PIL's defaults. *)
Inductive DrawOp :=
| Ellipse (xy : box) (fill outline : option rgba) (width : Z)
| Arc (xy : box) (start end_ : Z) (fill : option rgba) (width : Z)
| Line (xy : list Z) (fill : option rgba) (width : Z) (joint : option string)
| Polygon (xy : list (Z * Z)) (fill outline : option rgba) (width : Z)
| RoundedRectangle (xy : box) (radius : Z) (fill outline : option rgba) (width : Z)
| Text (xy : Z * Z) (text : string) (fill : option rgba) (font_size : Z).

Inductive Resampling := LANCZOS.

(** Symbolic pixel content of a PIL image. *)
Inductive Pixels :=
| Blank (color : rgba)
| Drawn (base : Pixels) (draw_mode : string) (op : DrawOp)
| Resized (base : Pixels) (w h : Z) (filter : Resampling).

Record Image := mkImage {
  im_mode : string;
  im_size : Z * Z;
  im_pixels : Pixels
}.

(** [Image.new(mode, size, color)] *)
Definition Image_new (mode : string) (size : Z * Z) (color : rgba) : Image :=
  mkImage mode size (Blank color).

(** [img.resize(size, filter)]: same mode, requested size. *)
Definition Image_resize (im : Image) (size : Z * Z) (filter : Resampling) : Image :=
  mkImage (im_mode im) size (Resized (im_pixels im) size.1 size.2 filter).

Definition Path : Type := list string.

Definition parent (p : Path) : Path := take (length p - 1) p.

Definition relative_to_root (p : Path) : string := String.concat "/" p.

(** The interpreter state the generator touches: the object heap, the file
    system (a written PNG is represented by the image it encodes), the
    directories, and standard output. *)
Record World := mkWorld {
  heap : gmap N Image;
  next_ref : N;
  files : gmap Path Image;
  dirs : gset Path;
  stdout : list string
}.

Definition set_heap (h : gmap N Image) (w : World) : World :=
  mkWorld h (next_ref w) (files w) (dirs w) (stdout w).

Definition M (A : Type) : Type := World -> A * World.

Global Instance M_ret : MRet M := fun A a w => (a, w).
Global Instance M_bind : MBind M :=
  fun A B k m w => let '(a, w') := m w in k a w'.

(** Allocation of a new Python object. *)
Definition alloc (im : Image) : M N := fun w =>
  (next_ref w,
   mkWorld (<[next_ref w := im]> (heap w)) (N.succ (next_ref w))
           (files w) (dirs w) (stdout w)).

(** Dereference; the scripts never hold a dangling reference. *)
Definition deref (r : N) : M Image := fun w =>
  (default (Image_new "RGBA" (0, 0) TRANSPARENT) (heap w !! r), w).

(** [ImageDraw.Draw(img, mode)] keeps a reference to [img]. *)
Record ImageDraw := mkDraw { draw_target : N; draw_mode : string }.

Definition ImageDraw_Draw (img : N) (mode : string) : ImageDraw := mkDraw img mode.

(** Every primitive paints onto the image the [ImageDraw] refers to. *)
Definition draw (d : ImageDraw) (op : DrawOp) : M unit := fun w =>
  (tt, set_heap (alter (fun im => mkImage (im_mode im) (im_size im)
                                     (Drawn (im_pixels im) (draw_mode d) op))
                       (draw_target d) (heap w)) w).

Definition ellipse d xy fill outline width := draw d (Ellipse xy fill outline width).
Definition arc d xy start end_ fill width := draw d (Arc xy start end_ fill width).
Definition line d xy fill width joint := draw d (Line xy fill width joint).
Definition polygon d xy fill outline width := draw d (Polygon xy fill outline width).
Definition rounded_rectangle d xy radius fill outline width :=
  draw d (RoundedRectangle xy radius fill outline width).
(** [d.text(xy, text, fill=..., font=ImageFont.load_default(size=n))] *)
Definition text d xy txt fill size := draw d (Text xy txt fill size).

(** [target.parent.mkdir(parents=True, exist_ok=True)] *)
Definition mkdir_parents (p : Path) : M unit := fun w =>
  (tt, mkWorld (heap w) (next_ref w) (files w)
         (list_to_set (map (fun n => take n p) (seq 1 (length p))) ∪ dirs w)
         (stdout w)).

(** [out.save(target)]: the file is created or truncated and rewritten. *)
Definition save (im : Image) (target : Path) : M unit := fun w =>
  (tt, mkWorld (heap w) (next_ref w) (<[target := im]> (files w)) (dirs w) (stdout w)).

Definition print (line : string) : M unit := fun w =>
  (tt, mkWorld (heap w) (next_ref w) (files w) (dirs w) (stdout w ++ [line])).

(** Python [for] loops. *)
Fixpoint for_ {A} (xs : list A) (body : A -> M unit) : M unit :=
  match xs with
  | [] => mret tt
  | x :: xs' => body x ≫= fun _ => for_ xs' body
  end.

Fixpoint for_acc {A B} (xs : list A) (acc : B) (body : B -> A -> M B) : M B :=
  match xs with
  | [] => mret acc
  | x :: xs' => body acc x ≫= fun acc' => for_acc xs' acc' body
  end.

Fixpoint enumerate_from {A} (start : Z) (xs : list A) : list (Z * A) :=
  match xs with
  | [] => []
  | x :: xs' => (start, x) :: enumerate_from (start + 1) xs'
  end.

(** [range(n)] *)
Definition range (n : Z) : list Z := seqZ 0 n.

(* ------------------------------------------------------------------ *)
(** ** Canvas factory and persistence *)

(** [def _new()]: [Image.new("RGBA", (CANVAS, CANVAS), (0, 0, 0, 0))]
    and an RGBA [ImageDraw] on it. *)
Definition _new : M (N * ImageDraw) :=
  img ← alloc (Image_new "RGBA" (CANVAS, CANVAS) TRANSPARENT);
  mret (img, ImageDraw_Draw img "RGBA").

(** [def _save(img, target)] *)
Definition _save (img : N) (target : Path) : M unit :=
  mkdir_parents (parent target) ≫= fun _ =>
  im ← deref img;
  let out := Image_resize im (SIZE, SIZE) LANCZOS in
  save out target.

Definition _rounded_rect d xy radius outline width :=
  rounded_rectangle d xy radius None (Some outline) width.

(* ------------------------------------------------------------------ *)
(** ** The icon builders *)

Definition icon_singing : M N :=
  '(img, d) ← _new;
  let s := _stroke 42 in
  ellipse d (_w 180, _w 90, _w 332, _w 250) None (Some WHITE) s;;
  arc d (_w 180, _w 154, _w 332, _w 316) 20 160 (Some WHITE) s;;
  line d [_w 256; _w 250; _w 256; _w 372] (Some WHITE) s None;;
  arc d (_w 174, _w 356, _w 338, _w 432) 200 340 (Some WHITE) s;;
  line d [_w 384; _w 180; _w 422; _w 164; _w 462; _w 180; _w 500; _w 164]
    (Some ORANGE) (_stroke 24) (Some "curve");;
  mret img.

Definition icon_lyrics : M N :=
  '(img, d) ← _new;
  let s := _stroke 34 in
  _rounded_rect d (_w 108, _w 80, _w 336, _w 426) (_w 28) WHITE s;;
  line d [_w 142; _w 170; _w 280; _w 170] (Some SOFT_WHITE) (_stroke 26) None;;
  line d [_w 142; _w 230; _w 280; _w 230] (Some SOFT_WHITE) (_stroke 26) None;;
  line d [_w 142; _w 290; _w 240; _w 290] (Some SOFT_WHITE) (_stroke 26) None;;
  line d [_w 330; _w 174; _w 426; _w 142; _w 426; _w 288] (Some BLUE) (_stroke 30) (Some "curve");;
  ellipse d (_w 298, _w 300, _w 352, _w 354) (Some BLUE) None 1;;
  ellipse d (_w 394, _w 268, _w 448, _w 322) (Some BLUE) None 1;;
  mret img.

Definition icon_sessions : M N :=
  '(img, d) ← _new;
  let s := _stroke 30 in
  _rounded_rect d (_w 130, _w 132, _w 318, _w 390) (_w 24) SOFT_WHITE s;;
  _rounded_rect d (_w 176, _w 96, _w 364, _w 354) (_w 24) WHITE s;;
  _rounded_rect d (_w 222, _w 62, _w 410, _w 320) (_w 24) WHITE s;;
  line d [_w 252; _w 142; _w 374; _w 142] (Some SOFT_WHITE) (_stroke 20) None;;
  line d [_w 252; _w 198; _w 360; _w 198] (Some SOFT_WHITE) (_stroke 20) None;;
  line d [_w 252; _w 254; _w 338; _w 254] (Some SOFT_WHITE) (_stroke 20) None;;
  mret img.

Definition icon_profile : M N :=
  '(img, d) ← _new;
  let s := _stroke 34 in
  ellipse d (_w 186, _w 82, _w 326, _w 222) None (Some WHITE) s;;
  rounded_rectangle d (_w 104, _w 236, _w 408, _w 412) (_w 90) None (Some WHITE) s;;
  mret img.

Definition icon_live_mode : M N :=
  '(img, d) ← _new;
  let s := _stroke 32 in
  _rounded_rect d (_w 84, _w 138, _w 430, _w 346) (_w 50) WHITE s;;
  ellipse d (_w 372, _w 172, _w 420, _w 220) (Some ORANGE) None 1;;
  line d [_w 158; _w 244; _w 356; _w 244] (Some SOFT_WHITE) (_stroke 24) None;;
  mret img.

Definition icon_lyrics_sync : M N :=
  '(img, d) ← _new;
  let s := _stroke 28 in
  _rounded_rect d (_w 194, _w 174, _w 318, _w 334) (_w 20) WHITE s;;
  arc d (_w 70, _w 70, _w 442, _w 442) 35 170 (Some WHITE) s;;
  polygon d [(_w 420, _w 120); (_w 462, _w 120); (_w 438, _w 160)] (Some WHITE) None 1;;
  arc d (_w 70, _w 70, _w 442, _w 442) 215 350 (Some WHITE) s;;
  polygon d [(_w 92, _w 394); (_w 132, _w 394); (_w 108, _w 430)] (Some WHITE) None 1;;
  mret img.

Definition icon_feedback (high : bool) : M N :=
  '(img, d) ← _new;
  let base_y := _w 390 in
  let bar_w := _w 54 in
  let gap := _w 34 in
  let x := _w 112 in
  let heights := [_w 120; _w 170; _w 230; _w 280] in
  let heights := if negb high then [_w 260; _w 210; _w 160; _w 110] else heights in
  for_acc (enumerate_from 0 heights) x (fun x '(i, h) =>
    let color := if (high && (i =? 3)) || (negb high && (i =? 0)) then ORANGE else SOFT_WHITE in
    rounded_rectangle d (x, base_y - h, x + bar_w, base_y) (_w 16) (Some color) None 1;;
    mret (x + (bar_w + gap)));;
  mret img.

Definition icon_mindfulness_voice : M N :=
  '(img, d) ← _new;
  let s := _stroke 34 in
  ellipse d (_w 182, _w 92, _w 330, _w 248) None (Some WHITE) s;;
  arc d (_w 182, _w 154, _w 330, _w 308) 20 160 (Some WHITE) s;;
  line d [_w 256; _w 246; _w 256; _w 350] (Some WHITE) s None;;
  arc d (_w 174, _w 336, _w 338, _w 412) 200 340 (Some WHITE) s;;
  line d [_w 350; _w 250; _w 382; _w 214; _w 414; _w 266; _w 452; _w 228; _w 490; _w 246]
    (Some ORANGE) (_stroke 24) (Some "curve");;
  mret img.

Definition icon_language_accent : M N :=
  '(img, d) ← _new;
  let s := _stroke 26 in
  ellipse d (_w 90, _w 84, _w 358, _w 352) None (Some WHITE) s;;
  arc d (_w 120, _w 84, _w 328, _w 352) 90 270 (Some SOFT_WHITE) (_stroke 20);;
  arc d (_w 140, _w 84, _w 308, _w 352) 90 270 (Some SOFT_WHITE) (_stroke 16);;
  line d [_w 90; _w 218; _w 358; _w 218] (Some SOFT_WHITE) (_stroke 20) None;;
  rounded_rectangle d (_w 292, _w 148, _w 456, _w 274) (_w 46) None (Some WHITE) s;;
  polygon d [(_w 330, _w 274); (_w 300, _w 308); (_w 334, _w 292)] (Some WHITE) None 1;;
  for_ [338; 374; 410] (fun x =>
    ellipse d (_w (inject_Z x), _w 198, _w (inject_Z (x + 20)), _w 218) (Some ORANGE) None 1);;
  mret img.

Definition icon_howto : M N :=
  '(img, d) ← _new;
  let s := _stroke 30 in
  _rounded_rect d (_w 110, _w 92, _w 402, _w 424) (_w 34) WHITE s;;
  _rounded_rect d (_w 198, _w 58, _w 314, _w 118) (_w 18) WHITE (_stroke 24);;
  line d [_w 156; _w 192; _w 292; _w 192] (Some SOFT_WHITE) (_stroke 20) None;;
  line d [_w 156; _w 246; _w 272; _w 246] (Some SOFT_WHITE) (_stroke 20) None;;
  line d [_w 156; _w 300; _w 292; _w 300] (Some SOFT_WHITE) (_stroke 20) None;;
  ellipse d (_w 286, _w 174, _w 404, _w 292) None (Some WHITE) (_stroke 20);;
  polygon d [(_w 330, _w 208); (_w 330, _w 258); (_w 372, _w 233)] (Some BLUE) None 1;;
  text d (_w 382, _w 94) "?" (Some ORANGE) (_w 82);;
  mret img.

Definition icon_record : M N :=
  '(img, d) ← _new;
  ellipse d (_w 108, _w 108, _w 404, _w 404) None (Some RED) (_stroke 36);;
  ellipse d (_w 194, _w 194, _w 318, _w 318) (Some RED) None 1;;
  mret img.

Definition icon_stop : M N :=
  '(img, d) ← _new;
  rounded_rectangle d (_w 128, _w 128, _w 384, _w 384) (_w 76) (Some RED) None 1;;
  mret img.

Definition icon_metronome : M N :=
  '(img, d) ← _new;
  let s := _stroke 26 in
  polygon d [(_w 256, _w 92); (_w 128, _w 412); (_w 384, _w 412)]
    (Some TRANSPARENT) (Some WHITE) s;;
  line d [_w 256; _w 180; _w 338; _w 308] (Some ORANGE) (_stroke 24) None;;
  ellipse d (_w 324, _w 292, _w 362, _w 330) (Some ORANGE) None 1;;
  mret img.

Definition icon_flag : M N :=
  '(img, d) ← _new;
  let s := _stroke 24 in
  line d [_w 146; _w 88; _w 146; _w 420] (Some WHITE) s None;;
  polygon d [(_w 158, _w 110); (_w 376, _w 154); (_w 158, _w 210)] (Some ORANGE) None 1;;
  line d [_w 146; _w 420; _w 222; _w 420] (Some WHITE) s None;;
  mret img.

Definition icon_bpm : M N :=
  '(img, d) ← _new;
  let s := _stroke 24 in
  polygon d [(_w 256, _w 92); (_w 144, _w 354); (_w 368, _w 354)]
    (Some TRANSPARENT) (Some WHITE) s;;
  line d [_w 256; _w 184; _w 316; _w 276] (Some ORANGE) (_stroke 20) None;;
  ellipse d (_w 300, _w 260, _w 332, _w 292) (Some ORANGE) None 1;;
  line d [_w 92; _w 418; _w 184; _w 418; _w 214; _w 392; _w 242; _w 436; _w 272; _w 406; _w 420; _w 406]
    (Some BLUE) (_stroke 16) (Some "curve");;
  mret img.

Definition icon_count_in : M N :=
  '(img, d) ← _new;
  let s := _stroke 20 in
  arc d (_w 82, _w 82, _w 430, _w 430) 300 580 (Some WHITE) s;;
  for_ (enumerate_from 1 [170; 230; 290; 350]) (fun '(i, x) =>
    let color := if i =? 4 then ORANGE else SOFT_WHITE in
    ellipse d (_w (inject_Z x), _w 244, _w (inject_Z (x + 30)), _w 274) (Some color) None 1);;
  line d [_w 256; _w 112; _w 256; _w 170] (Some ORANGE) (_stroke 16) None;;
  mret img.

Definition icon_lyrics_flow : M N :=
  '(img, d) ← _new;
  line d [_w 98; _w 170; _w 290; _w 170] (Some SOFT_WHITE) (_stroke 24) None;;
  polygon d [(_w 290, _w 146); (_w 352, _w 170); (_w 290, _w 194)] (Some SOFT_WHITE) None 1;;
  line d [_w 98; _w 256; _w 330; _w 256] (Some WHITE) (_stroke 24) None;;
  polygon d [(_w 330, _w 230); (_w 394, _w 256); (_w 330, _w 282)] (Some BLUE) None 1;;
  line d [_w 98; _w 340; _w 370; _w 340] (Some SOFT_WHITE) (_stroke 24) None;;
  polygon d [(_w 370, _w 314); (_w 434, _w 340); (_w 370, _w 366)] (Some ORANGE) None 1;;
  mret img.

Definition icon_about : M N :=
  '(img, d) ← _new;
  ellipse d (_w 110, _w 110, _w 402, _w 402) None (Some WHITE) (_stroke 28);;
  ellipse d (_w 244, _w 168, _w 268, _w 192) (Some BLUE) None 1;;
  line d [_w 256; _w 216; _w 256; _w 330] (Some WHITE) (_stroke 26) None;;
  mret img.

Definition icon_no_song : M N :=
  '(img, d) ← _new;
  _rounded_rect d (_w 120, _w 96, _w 318, _w 394) (_w 24) SOFT_WHITE (_stroke 26);;
  line d [_w 338; _w 170; _w 418; _w 144; _w 418; _w 258] (Some BLUE) (_stroke 20) (Some "curve");;
  ellipse d (_w 312, _w 274, _w 358, _w 320) (Some BLUE) None 1;;
  line d [_w 118; _w 402; _w 404; _w 108] (Some ORANGE) (_stroke 22) None;;
  mret img.

Definition icon_gender (female : bool) : M N :=
  '(img, d) ← _new;
  let s := _stroke 24 in
  ellipse d (_w 180, _w 96, _w 332, _w 248) None (Some WHITE) s;;
  (if female
   then arc d (_w 158, _w 90, _w 354, _w 286) 205 335 (Some BLUE) (_stroke 30)
   else rounded_rectangle d (_w 176, _w 90, _w 336, _w 156) (_w 26) (Some BLUE) None 1);;
  rounded_rectangle d (_w 108, _w 252, _w 404, _w 418) (_w 90) None (Some WHITE) s;;
  mret img.

Definition icon_beats (count : Z) : M N :=
  '(img, d) ← _new;
  let spacing := 70 in
  let total := (count - 1) * spacing in
  let start := 256 - total / 2 in
  for_ (range count) (fun i =>
    let x := start + i * spacing in
    let color := if i =? count - 1 then ORANGE else SOFT_WHITE in
    ellipse d (_w (inject_Z (x - 22)), _w 220, _w (inject_Z (x + 22)), _w 264) (Some color) None 1);;
  line d [_w 130; _w 320; _w 382; _w 320] (Some WHITE) (_stroke 18) None;;
  mret img.

Definition icon_easepocket : M N :=
  '(img, d) ← _new;
  ellipse d (_w 92, _w 86, _w 420, _w 414) None (Some SOFT_WHITE) (_stroke 20);;
  line d [_w 124; _w 256; _w 188; _w 256; _w 236; _w 210; _w 280; _w 302; _w 336; _w 236; _w 390; _w 236]
    (Some BLUE) (_stroke 20) (Some "curve");;
  ellipse d (_w 356, _w 146, _w 392, _w 182) (Some ORANGE) None 1;;
  ellipse d (_w 140, _w 318, _w 170, _w 348) (Some (120, 120, 255, 210)) None 1;;
  mret img.

(* ------------------------------------------------------------------ *)
(** ** Catalog registry and entry point *)

Definition ASSETS : Path := ["assets"; "images"].
Definition ICON_SET : Path := ASSETS ++ ["icon-set"].

Definition ICON_BUILD : list (Path * M N) := [
  (ICON_SET ++ ["Singing.png"], icon_singing);
  (ICON_SET ++ ["Lyrics.png"], icon_lyrics);
  (ICON_SET ++ ["sessions.png"], icon_sessions);
  (ICON_SET ++ ["Profile.png"], icon_profile);
  (ICON_SET ++ ["Live_mode.png"], icon_live_mode);
  (ICON_SET ++ ["Lyrics_sync.png"], icon_lyrics_sync);
  (ICON_SET ++ ["Feedback_intensity_high.png"], icon_feedback true);
  (ICON_SET ++ ["Feedback_intensity_low.png"], icon_feedback false);
  (ICON_SET ++ ["Mindfullness_voice.png"], icon_mindfulness_voice);
  (ICON_SET ++ ["Language_accent.png"], icon_language_accent);
  (ICON_SET ++ ["howto-icon.png"], icon_howto);
  (ASSETS ++ ["record_icon.png"], icon_record);
  (ASSETS ++ ["Stop_icon.png"], icon_stop);
  (ASSETS ++ ["metronome_icon.png"], icon_metronome);
  (ASSETS ++ ["flag_icon.png"], icon_flag);
  (ASSETS ++ ["bpm_icon.png"], icon_bpm);
  (ASSETS ++ ["count_in_icon.png"], icon_count_in);
  (ASSETS ++ ["lyrics_flow_speed_icon.png"], icon_lyrics_flow);
  (ASSETS ++ ["about_icon.png"], icon_about);
  (ASSETS ++ ["nosong_state.png"], icon_no_song);
  (ASSETS ++ ["Female.png"], icon_gender true);
  (ASSETS ++ ["Male.png"], icon_gender false);
  (ASSETS ++ ["two_beats.png"], icon_beats 2);
  (ASSETS ++ ["four_beats.png"], icon_beats 4);
  (ASSETS ++ ["EasePocket.png"], icon_easepocket)
].

(** [if __name__ == "__main__": for target, builder in ICON_BUILD: ...] *)
Definition main : M unit :=
  for_ ICON_BUILD (fun '(target, builder) =>
    img ← builder;
    _save img target;;
    print ("generated " +:+ relative_to_root target)).

(** The world a fresh interpreter starts in. *)
Definition empty_world : World := mkWorld ∅ 0%N ∅ ∅ [].

(** The canvas a builder leaves on the heap. *)
Definition canvas_of (b : M N) (w : World) : option Image :=
  let '(r, w') := b w in heap w' !! r.

Fixpoint ops_of (p : Pixels) : list DrawOp :=
  match p with
  | Blank _ => []
  | Drawn base _ op => ops_of base ++ [op]
  | Resized base _ _ _ => ops_of base
  end.

Definition builder_ops (b : M N) : list DrawOp :=
  match canvas_of b empty_world with
  | Some im => ops_of (im_pixels im)
  | None => []
  end.

(* ------------------------------------------------------------------ *)
(** ** Builders only paint their own canvas *)

(** Painting a sequence of primitives through an RGBA [ImageDraw]. *)
Definition paint (ops : list DrawOp) (im : Image) : Image :=
  foldl (fun im op => mkImage (im_mode im) (im_size im) (Drawn (im_pixels im) "RGBA" op))
        im ops.

(** [body r] is code that, run with the canvas [r] allocated, paints a
    fixed sequence of primitives on [r], touches nothing else, and
    returns [va r]. *)
Definition canvas_local {A} (body : N -> M A) (va : N -> A) : Prop :=
  exists ops, forall r w im, heap w !! r = Some im ->
    body r w = (va r, set_heap (<[r := paint ops im]> (heap w)) w).

(** The canvas allocated by [_new]. *)
Definition fresh_canvas : Image := Image_new "RGBA" (CANVAS, CANVAS) TRANSPARENT.

(** [b] allocates the next heap cell, leaves the image [im] in it, and
    changes nothing else. *)
Definition builder_spec (b : M N) (im : Image) : Prop :=
  forall w, b w = (next_ref w,
    mkWorld (<[next_ref w := im]> (heap w)) (N.succ (next_ref w))
            (files w) (dirs w) (stdout w)).

Inductive icon_builder : M N -> Prop :=
| ib_singing : icon_builder icon_singing
| ib_lyrics : icon_builder icon_lyrics
| ib_sessions : icon_builder icon_sessions
| ib_profile : icon_builder icon_profile
| ib_live_mode : icon_builder icon_live_mode
| ib_lyrics_sync : icon_builder icon_lyrics_sync
| ib_feedback high : icon_builder (icon_feedback high)
| ib_mindfulness_voice : icon_builder icon_mindfulness_voice
| ib_language_accent : icon_builder icon_language_accent
| ib_howto : icon_builder icon_howto
| ib_record : icon_builder icon_record
| ib_stop : icon_builder icon_stop
| ib_metronome : icon_builder icon_metronome
| ib_flag : icon_builder icon_flag
| ib_bpm : icon_builder icon_bpm
| ib_count_in : icon_builder icon_count_in
| ib_lyrics_flow : icon_builder icon_lyrics_flow
| ib_about : icon_builder icon_about
| ib_no_song : icon_builder icon_no_song
| ib_gender female : icon_builder (icon_gender female)
| ib_beats count : icon_builder (icon_beats count)
| ib_easepocket : icon_builder icon_easepocket.

Lemma set_heap_insert_insert (w : World) r x y :
  set_heap (<[r := x]> (heap (set_heap (<[r := y]> (heap w)) w)))
           (set_heap (<[r := y]> (heap w)) w)
  = set_heap (<[r := x]> (heap w)) w.
Proof. unfold set_heap; simpl. by rewrite insert_insert_eq. Qed.

Lemma paint_app ops1 ops2 im : paint (ops1 ++ ops2) im = paint ops2 (paint ops1 im).
Proof. unfold paint. by rewrite foldl_app. Qed.

Lemma canvas_local_bind {A B} (m : N -> M A) (k : N -> A -> M B) va vb :
  canvas_local m va -> canvas_local (fun r => k r (va r)) vb ->
  canvas_local (fun r => m r ≫= k r) vb.
Proof.
  intros [ops1 H1] [ops2 H2]. exists (ops1 ++ ops2). intros r w im Hr.
  unfold mbind, M_bind. rewrite (H1 r w im Hr).
  rewrite (H2 r _ (paint ops1 im)) by (simpl; apply lookup_insert_eq).
  by rewrite set_heap_insert_insert, paint_app.
Qed.

Lemma canvas_local_ret {A} (va : N -> A) :
  canvas_local (fun r => mret (va r)) va.
Proof.
  exists []. intros r w im Hr. unfold mret, M_ret, set_heap; simpl.
  destruct w as [h n fs ds out]; simpl in *. by rewrite insert_id.
Qed.

Lemma canvas_local_draw op :
  canvas_local (fun r => draw (ImageDraw_Draw r "RGBA") op) (fun _ => tt).
Proof.
  exists [op]. intros r w im Hr. unfold draw; simpl.
  f_equal. f_equal. apply map_eq; intros k.
  destruct (decide (k = r)) as [->|Hk].
  - by rewrite lookup_alter_eq, lookup_insert_eq, Hr.
  - by rewrite lookup_alter_ne, lookup_insert_ne by congruence.
Qed.

Lemma canvas_local_for {A} (xs : list A) (body : N -> A -> M unit) :
  (forall x, canvas_local (fun r => body r x) (fun _ => tt)) ->
  canvas_local (fun r => for_ xs (body r)) (fun _ => tt).
Proof.
  intros Hb. induction xs as [|x xs IH]; simpl.
  - apply (canvas_local_ret (fun _ => tt)).
  - eapply canvas_local_bind; [apply Hb | exact IH].
Qed.

Lemma builder_of_canvas_local (P : N * ImageDraw -> M N) :
  canvas_local (fun r => P (r, ImageDraw_Draw r "RGBA")) (fun r => r) ->
  exists ops, builder_spec (_new ≫= P) (paint ops fresh_canvas).
Proof.
  intros [ops H]. exists ops. intros w.
  unfold _new, mbind, M_bind, mret, M_ret, alloc; simpl.
  rewrite (H (next_ref w) _ fresh_canvas) by (simpl; apply lookup_insert_eq).
  unfold set_heap; simpl. by rewrite insert_insert_eq.
Qed.

Ltac canvas_tac :=
  cbv beta iota zeta;
  first
    [ apply canvas_local_draw
    | apply canvas_local_ret
    | apply canvas_local_for; intro; canvas_tac
    | eapply canvas_local_bind; [canvas_tac | canvas_tac] ].

Ltac builder_tac :=
  apply builder_of_canvas_local;
  unfold ellipse, arc, line, polygon, rounded_rectangle, text, _rounded_rect;
  canvas_tac.

Lemma icon_builder_shape (b : M N) :
  icon_builder b -> exists ops, builder_spec b (paint ops fresh_canvas).
Proof.
  destruct 1.
  all: try (destruct high); try (destruct female).
  all: unfold icon_singing, icon_lyrics, icon_sessions, icon_profile, icon_live_mode,
         icon_lyrics_sync, icon_feedback, icon_mindfulness_voice, icon_language_accent,
         icon_howto, icon_record, icon_stop, icon_metronome, icon_flag, icon_bpm,
         icon_count_in, icon_lyrics_flow, icon_about, icon_no_song, icon_gender,
         icon_beats, icon_easepocket.
  all: try (cbv zeta; cbn [for_acc enumerate_from for_]).
  all: builder_tac.
Qed.

Fixpoint base_color (p : Pixels) : rgba :=
  match p with
  | Blank c => c
  | Drawn base _ _ => base_color base
  | Resized base _ _ _ => base_color base
  end.

Lemma paint_fields ops im :
  im_mode (paint ops im) = im_mode im /\ im_size (paint ops im) = im_size im /\
  base_color (im_pixels (paint ops im)) = base_color (im_pixels im).
Proof.
  revert im. induction ops as [|op ops IH]; intros im; simpl; [done|].
  destruct (IH (mkImage (im_mode im) (im_size im) (Drawn (im_pixels im) "RGBA" op)))
    as (-> & -> & ->). done.
Qed.

Lemma builder_spec_canvas b im w : builder_spec b im -> canvas_of b w = Some im.
Proof. intros H. unfold canvas_of. rewrite (H w). simpl. apply lookup_insert_eq. Qed.

(** The image a catalog entry persists, computed in a fresh interpreter. *)
Definition saved_image (b : M N) : Image :=
  Image_resize (default fresh_canvas (canvas_of b empty_world)) (SIZE, SIZE) LANCZOS.

Definition entry_line (e : Path * M N) : string :=
  "generated " +:+ relative_to_root e.1.

Definition write_all (es : list (Path * M N)) (fs : gmap Path Image) : gmap Path Image :=
  foldl (fun m e => <[e.1 := saved_image e.2]> m) fs es.

Definition main_body : Path * M N -> M unit :=
  fun '(target, builder) =>
    img ← builder;
    _save img target;;
    print ("generated " +:+ relative_to_root target).

Lemma main_unfold : main = for_ ICON_BUILD main_body.
Proof. reflexivity. Qed.

Lemma entry_effect target b w :
  icon_builder b ->
  exists hp ds, main_body (target, b) w =
    (tt, mkWorld hp (N.succ (next_ref w)) (<[target := saved_image b]> (files w)) ds
                 (stdout w ++ [entry_line (target, b)])).
Proof.
  intros Hb. destruct (icon_builder_shape b Hb) as [ops Hs].
  unfold saved_image. rewrite (builder_spec_canvas _ _ empty_world Hs). simpl.
  unfold main_body, mbind, M_bind, mret, M_ret. rewrite (Hs w).
  unfold _save, mbind, M_bind, mkdir_parents, deref, save, print; simpl.
  rewrite lookup_insert_eq. simpl. eexists _, _. reflexivity.
Qed.

Lemma for_entries_effect (es : list (Path * M N)) w :
  Forall (fun e => icon_builder e.2) es ->
  exists hp ds, for_ es main_body w =
    (tt, mkWorld hp (next_ref w + N.of_nat (length es)) (write_all es (files w)) ds
                 (stdout w ++ map entry_line es)).
Proof.
  intros Hes. revert w. induction Hes as [|[p b] es Hb Hes IH]; intros w; cbn [for_].
  - exists (heap w), (dirs w). destruct w; simpl. by rewrite N.add_0_r, app_nil_r.
  - destruct (entry_effect p b w Hb) as (hp1 & ds1 & E1).
    unfold mbind at 1, M_bind at 1. rewrite E1.
    destruct (IH (mkWorld hp1 (N.succ (next_ref w)) (<[p:=saved_image b]> (files w)) ds1
                  (stdout w ++ [entry_line (p, b)]))) as (hp2 & ds2 & E2).
    exists hp2, ds2. rewrite E2. simpl. f_equal. f_equal; simpl.
    + lia.
    + by rewrite <- app_assoc.
Qed.

Lemma ICON_BUILD_builders : Forall (fun e => icon_builder e.2) ICON_BUILD.
Proof. repeat constructor. Qed.

Lemma ICON_BUILD_paths_NoDup : NoDup (map fst ICON_BUILD).
Proof. apply (bool_decide_unpack _). vm_compute. reflexivity. Qed.

Lemma write_all_cons p b es fs :
  write_all ((p, b) :: es) fs = write_all es (<[p := saved_image b]> fs).
Proof. reflexivity. Qed.

Lemma write_all_notin es fs k :
  k ∉ map fst es -> write_all es fs !! k = fs !! k.
Proof.
  revert fs. induction es as [|[p b] es IH]; intros fs Hk; [done|].
  rewrite write_all_cons. simpl in Hk. rewrite IH by set_solver.
  apply lookup_insert_ne. set_solver.
Qed.

Lemma write_all_in es fs1 fs2 k :
  k ∈ map fst es -> write_all es fs1 !! k = write_all es fs2 !! k.
Proof.
  revert fs1 fs2. induction es as [|[p b] es IH]; intros fs1 fs2 Hk.
  - set_solver.
  - rewrite !write_all_cons.
    simpl in Hk. destruct (decide (k ∈ map fst es)) as [Hin|Hnin]; [by apply IH|].
    rewrite !write_all_notin by done.
    assert (k = p) as -> by set_solver. by rewrite !lookup_insert_eq.
Qed.

Lemma write_all_idem es fs : write_all es (write_all es fs) = write_all es fs.
Proof.
  apply map_eq. intros k. destruct (decide (k ∈ map fst es)).
  - by apply write_all_in.
  - by rewrite !write_all_notin.
Qed.

Lemma write_all_entry es fs p b :
  NoDup (map fst es) -> (p, b) ∈ es -> write_all es fs !! p = Some (saved_image b).
Proof.
  revert fs. induction es as [|[q c] es IH]; intros fs Hnd Hin; [set_solver|].
  simpl in Hnd. apply NoDup_cons in Hnd as [Hq Hnd].
  rewrite write_all_cons. apply elem_of_cons in Hin as [Heq|Hin].
  - injection Heq as -> ->. rewrite write_all_notin by done. apply lookup_insert_eq.
  - by apply IH.
Qed.

Lemma saved_image_fields b :
  icon_builder b ->
  im_mode (saved_image b) = "RGBA" /\ im_size (saved_image b) = (SIZE, SIZE) /\
  base_color (im_pixels (saved_image b)) = TRANSPARENT.
Proof.
  intros Hb. destruct (icon_builder_shape b Hb) as [ops Hs].
  unfold saved_image. rewrite (builder_spec_canvas _ _ empty_world Hs). simpl.
  destruct (paint_fields ops fresh_canvas) as (-> & _ & ->). done.
Qed.

Lemma main_effect w :
  exists hp ds, main w =
    (tt, mkWorld hp (next_ref w + N.of_nat (length ICON_BUILD))
                 (write_all ICON_BUILD (files w)) ds
                 (stdout w ++ map entry_line ICON_BUILD)).
Proof. rewrite main_unfold. apply for_entries_effect, ICON_BUILD_builders. Qed.

(* ------------------------------------------------------------------ *)
(** ** [scripts/optimize_web_assets.py] *)

Module OptimizeWebAssets.

Definition IMAGES_ROOT : Path := ["assets"; "images"].
Definition SKIP_PREFIXES : list string := ["assets/images/web/"].
Definition SKIP_EXACT : list string := [
  "assets/images/android-icon-background.png";
  "assets/images/android-icon-foreground.png";
  "assets/images/android-icon-monochrome.png"].

(** [s.endswith(suffix)] *)
Definition ends_with (suffix s : string) : bool :=
  let n := String.length s in
  let m := String.length suffix in
  (m <=? n)%nat && String.eqb (substring (n - m) m s) suffix.

(** [path.name]: the last component. *)
Definition name (p : Path) : string := default "" (last p).

(** [path.with_name(n)] *)
Definition with_name (p : Path) (n : string) : Path := removelast p ++ [n].

(** [s.rfind(c)], [None] standing for [-1]. *)
Fixpoint rfind (c : ascii) (s : string) : option nat :=
  match s with
  | EmptyString => None
  | String a s' =>
      match rfind c s' with
      | Some i => Some (S i)
      | None => if Ascii.eqb a c then Some 0%nat else None
      end
  end.

(** [PurePath.stem]: [i = name.rfind('.')];
    [name[:i] if 0 < i < len(name) - 1 else name]. *)
Definition stem (n : string) : string :=
  match rfind "." n with
  | Some i => if (0 <? i)%nat && (i <? String.length n - 1)%nat then substring 0 i n else n
  | None => n
  end.

(** [def should_process(path)] *)
Definition should_process (path : Path) : bool :=
  let rel := relative_to_root path in
  if existsb (fun prefix => String.prefix prefix rel) SKIP_PREFIXES then false
  else if existsb (String.eqb rel) SKIP_EXACT then false
  else if ends_with ".web.png" (name path) then false
  else true.

(** [rglob("*.png")] below a directory: every entry (file or directory)
    strictly under it whose name matches [*.png]. *)
Definition rglob_png (root : Path) (files : list Path) : list Path :=
  filter (fun p => bool_decide (root `prefix_of` p) && (length root <? length p)%nat
                   && ends_with ".png" (name p)) files.

(** Ordering of [PurePosixPath] objects: lexicographic on components,
    components compared by code points (byte order of UTF-8). *)
Fixpoint path_leb (p q : Path) : bool :=
  match p, q with
  | [], _ => true
  | _ :: _, [] => false
  | a :: p', b :: q' =>
      match String.compare a b with
      | Lt => true
      | Gt => false
      | Eq => path_leb p' q'
      end
  end.

Definition path_le (p q : Path) : Prop := path_leb p q = true.

Global Instance path_le_dec : RelDecision path_le :=
  fun p q => decide (path_leb p q = true).

(** [def discover_sources()]; the asset tree holds the files [fs] and the
    directories [ds], and [rglob] yields both kinds of entry. *)
Definition discover_sources (fs : gmap Path (list Byte.byte)) (ds : gset Path) : list Path :=
  merge_sort path_le (filter should_process (rglob_png IMAGES_ROOT (elements (dom fs ∪ ds)))).

(** Python's [a / b] on ints: [ZeroDivisionError] when [b = 0]. *)
Definition py_truediv (a b : Z) : option Q :=
  if b =? 0 then None else Some (inject_Z a / inject_Z b)%Q.

(** [0.0 if before == 0 else (1 - after / before) * 100], written once in
    [run] for each file and once for the totals. *)
Definition reduction (before after : Z) : option Q :=
  if before =? 0 then Some 0%Q
  else q ← py_truediv after before; Some ((1 - q) * 100)%Q.

Record Report := mkReport {
  rep_src : Path; rep_dst : Path;
  rep_before : Z; rep_after : Z; rep_reduction : Q }.

Record Total := mkTotal {
  tot_count : Z; tot_before : Z; tot_after : Z; tot_reduction : Q }.

Section Optimizer.

(** PIL, as seen by the optimizer: the bands of a decoded PNG, and the bytes
    [image.convert(mode).save(dst, format="PNG", optimize=True,
    compress_level=9)] writes. *)
Variable getbands : list Byte.byte -> list string.
Variable encode_png : string -> list Byte.byte -> list Byte.byte.

Definition convert_mode (data : list Byte.byte) : string :=
  if existsb (String.eqb "A") (getbands data) then "RGBA" else "RGB".

(** [def optimize(src)]: [None] is an exception (missing file). *)
Definition optimize (fs : gmap Path (list Byte.byte)) (src : Path)
  : option (gmap Path (list Byte.byte) * (Path * Z * Z)) :=
  let dst := with_name src (stem (name src) +:+ ".web.png") in
  data ← fs !! src;
  let before := Z.of_nat (length data) in
  let fs1 := <[dst := encode_png (convert_mode data) data]> fs in
  out1 ← fs1 !! dst;
  let after := Z.of_nat (length out1) in
  if after >? before then
    copied ← fs1 !! src;
    let fs2 := <[dst := copied]> fs1 in
    out2 ← fs2 !! dst;
    Some (fs2, (dst, before, Z.of_nat (length out2)))
  else Some (fs1, (dst, before, after)).

(** The [for src in sources] loop of [run]. *)
Fixpoint run_loop (fs : gmap Path (list Byte.byte)) (sources : list Path)
    (total_before total_after count : Z) (printed : list Report)
  : option (gmap Path (list Byte.byte) * Z * Z * Z * list Report) :=
  match sources with
  | [] => Some (fs, total_before, total_after, count, printed)
  | src :: rest =>
      '(fs', (dst, before, after)) ← optimize fs src;
      let total_before := total_before + before in
      let total_after := total_after + after in
      red ← reduction before after;
      run_loop fs' rest total_before total_after (count + 1)
               (printed ++ [mkReport src dst before after red])
  end.

(** [def run(sources)]: the final file system, the per-file lines and the
    total line. *)
Definition run (fs : gmap Path (list Byte.byte)) (sources : list Path)
  : option (gmap Path (list Byte.byte) * list Report * Total) :=
  '(fs', total_before, total_after, count, printed) ← run_loop fs sources 0 0 0 [];
  total_reduction ← reduction total_before total_after;
  Some (fs', printed, mkTotal count total_before total_after total_reduction).

Lemma reduction_total (before after : Z) :
  reduction before after =
    Some (if before =? 0 then 0 else (1 - inject_Z after / inject_Z before) * 100)%Q.
Proof. unfold reduction, py_truediv. by destruct (before =? 0). Qed.

End Optimizer.

Lemma string_length_app (s t : string) :
  String.length (s +:+ t) = (String.length s + String.length t)%nat.
Proof. induction s as [|a s IH]; simpl; [done|]. by rewrite IH. Qed.

Lemma substring_0_length (i : nat) (n : string) :
  (String.length (substring 0 i n) <= String.length n)%nat.
Proof.
  revert i. induction n as [|a n IH]; intros [|i]; simpl; try lia.
  specialize (IH i). lia.
Qed.

Lemma stem_length (n : string) : (String.length (stem n) <= String.length n)%nat.
Proof.
  unfold stem. destruct (rfind "." n) as [i|]; [|done].
  destruct (_ && _); [apply substring_0_length | done].
Qed.

Lemma rfind_none (c : ascii) (s : string) :
  rfind c s = None -> forall j, String.get j s <> Some c.
Proof.
  induction s as [|a s IH]; intros H j; simpl; [done|].
  simpl in H. destruct (rfind c s); [done|].
  destruct (Ascii.eqb a c) eqn:E; [done|]. destruct j as [|j].
  - intros [= ->]. by rewrite Ascii.eqb_refl in E.
  - by apply IH.
Qed.

Lemma rfind_last (c : ascii) (s : string) (i : nat) :
  rfind c s = Some i -> forall j, (i < j)%nat -> String.get j s <> Some c.
Proof.
  revert i. induction s as [|a s IH]; intros i H j Hj; simpl; [done|].
  simpl in H. destruct (rfind c s) as [i'|] eqn:E.
  - injection H as <-. destruct j as [|j]; [lia|]. apply (IH i'); [done|lia].
  - destruct (Ascii.eqb a c); [|done]. injection H as <-.
    destruct j as [|j]; [lia|]. by apply rfind_none.
Qed.

Lemma rfind_lt (c : ascii) (s : string) (i : nat) :
  rfind c s = Some i -> (i < String.length s)%nat.
Proof.
  revert i. induction s as [|a s IH]; intros i H; simpl in *; [done|].
  destruct (rfind c s) as [i'|].
  - injection H as <-. specialize (IH i' eq_refl). lia.
  - destruct (Ascii.eqb a c); [|done]. injection H as <-. lia.
Qed.

Lemma substring_0_length_eq (i : nat) (n : string) :
  (i <= String.length n)%nat -> String.length (substring 0 i n) = i.
Proof.
  revert i. induction n as [|a n IH]; intros [|i] Hi; simpl in *; try lia.
  rewrite IH; lia.
Qed.

Lemma get_app_r (s t : string) (k : nat) :
  String.get (String.length s + k) (s +:+ t) = String.get k t.
Proof. induction s as [|a s IH]; simpl; [done|]. exact IH. Qed.

(** The variant name never equals the source name. *)
Lemma name_variant_ne (n : string) : stem n +:+ ".web.png" <> n.
Proof.
  unfold stem. destruct (rfind "." n) as [i|] eqn:Ei.
  - destruct (_ && _); intros H.
    + pose proof (rfind_lt _ _ _ Ei) as Hi.
      apply (rfind_last _ _ _ Ei (i + 4)); [lia|].
      rewrite <- H. rewrite <- (substring_0_length_eq i n) at 1 by lia.
      by rewrite get_app_r.
    + apply (f_equal String.length) in H. rewrite string_length_app in H.
      cbn [String.length] in H. lia.
  - intros H. apply (f_equal String.length) in H. rewrite string_length_app in H.
    cbn [String.length] in H. lia.
Qed.

Lemma variant_ne (src : Path) : with_name src (stem (name src) +:+ ".web.png") <> src.
Proof.
  unfold with_name, name. destruct src as [|x l _] using rev_ind; [simpl; discriminate|].
  rewrite removelast_last, last_snoc. cbn [default]. intros H.
  apply app_inj_tail in H as [_ H]. exact (name_variant_ne x H).
Qed.




Section OptimizerFacts.

Variable getbands : list Byte.byte -> list string.
Variable encode_png : string -> list Byte.byte -> list Byte.byte.

Definition variant (src : Path) : Path := with_name src (stem (name src) +:+ ".web.png").

Lemma optimize_eq (fs : gmap Path (list Byte.byte)) (src : Path) (data : list Byte.byte) :
  fs !! src = Some data ->
  let enc := encode_png (convert_mode getbands data) data in
  optimize getbands encode_png fs src =
    if decide (length data < length enc)%nat
    then Some (<[variant src := data]> (<[variant src := enc]> fs),
               (variant src, Z.of_nat (length data), Z.of_nat (length data)))
    else Some (<[variant src := enc]> fs,
               (variant src, Z.of_nat (length data), Z.of_nat (length enc))).
Proof.
  intros Hsrc enc. unfold optimize. fold (variant src). rewrite Hsrc. cbn [mbind option_bind].
  rewrite lookup_insert_eq. cbn [mbind option_bind]. fold enc.
  destruct (decide (length data < length enc)%nat) as [Hlt|Hge].
  - replace (Z.of_nat (length enc) >? Z.of_nat (length data)) with true
      by (symmetry; apply Z.gtb_lt; lia).
    rewrite lookup_insert_ne by (exact (variant_ne src)). rewrite Hsrc.
    cbn [mbind option_bind]. by rewrite lookup_insert_eq.
  - replace (Z.of_nat (length enc) >? Z.of_nat (length data)) with false
      by (symmetry; rewrite Z.gtb_ltb; apply Z.ltb_ge; lia). done.
Qed.

Lemma optimize_some (fs : gmap Path (list Byte.byte)) (src : Path) :
  is_Some (fs !! src) ->
  exists fs' dst before after,
    optimize getbands encode_png fs src = Some (fs', (dst, before, after)) /\
    forall k, is_Some (fs !! k) -> is_Some (fs' !! k).
Proof.
  intros [data Hsrc]. rewrite (optimize_eq fs src data Hsrc).
  destruct (decide _); do 4 eexists; (split; [reflexivity|]); intros k Hk;
    rewrite ?lookup_insert_is_Some'; auto.
Qed.

Lemma run_loop_some (sources : list Path) :
  forall fs tb ta cnt printed,
  Forall (fun s => is_Some (fs !! s)) sources ->
  exists fs' tb' ta' cnt' printed',
    run_loop getbands encode_png fs sources tb ta cnt printed
      = Some (fs', tb', ta', cnt', printed') /\
    length printed' = (length printed + length sources)%nat /\
    (Forall (fun r => rep_before r = 0 -> rep_reduction r = 0%Q) printed ->
     Forall (fun r => rep_before r = 0 -> rep_reduction r = 0%Q) printed').
Proof.
  induction sources as [|src rest IH]; intros fs tb ta cnt printed Hall.
  - do 5 eexists. split; [reflexivity|]. split; [simpl; lia | done].
  - apply Forall_cons in Hall as [Hsrc Hrest].
    destruct (optimize_some fs src Hsrc) as (fs1 & dst & b & a & Eo & Hkeep).
    cbn [run_loop]. rewrite Eo. cbn [mbind option_bind].
    rewrite reduction_total. cbn [mbind option_bind].
    destruct (IH fs1 (tb + b) (ta + a) (cnt + 1)
                (printed ++ [mkReport src dst b a
                   (if b =? 0 then 0 else (1 - inject_Z a / inject_Z b) * 100)%Q]))
      as (fs' & tb' & ta' & cnt' & printed' & E & Hlen & Hrep).
    { eapply Forall_impl; [exact Hrest|]. intros k. apply Hkeep. }
    exists fs', tb', ta', cnt', printed'. split; [exact E|]. split.
    + rewrite Hlen, length_app. simpl. lia.
    + intros Hp. apply Hrep, Forall_app. split; [done|].
      constructor; [|constructor]. simpl. intros ->. done.
Qed.

End OptimizerFacts.

Lemma discover_sources_spec (fs : gmap Path (list Byte.byte)) (ds : gset Path) (p : Path) :
  p ∈ discover_sources fs ds <->
  (is_Some (fs !! p) \/ p ∈ ds) /\ IMAGES_ROOT `prefix_of` p /\ (length IMAGES_ROOT < length p)%nat /\
  ends_with ".png" (name p) = true /\ should_process p = true.
Proof.
  unfold discover_sources, rglob_png. rewrite merge_sort_Permutation.
  rewrite !list_elem_of_filter.
  assert (Hin : p ∈ elements (dom fs ∪ ds) <-> is_Some (fs !! p) \/ p ∈ ds).
  { by rewrite elem_of_elements, elem_of_union, elem_of_dom. }
  rewrite Hin. unfold Is_true.
  destruct (should_process p), (bool_decide (IMAGES_ROOT `prefix_of` p)) eqn:Hpre,
    (length IMAGES_ROOT <? length p)%nat eqn:Hlt, (ends_with ".png" (name p));
    rewrite ?bool_decide_eq_true in Hpre; rewrite ?bool_decide_eq_false in Hpre;
    rewrite ?Nat.ltb_lt in Hlt; rewrite ?Nat.ltb_ge in Hlt;
    simpl; intuition (try done; try (simpl in *; lia)).
Qed.

End OptimizeWebAssets.

Import OptimizeWebAssets.

(* ------------------------------------------------------------------ *)
(** ** Helpers for the statements *)

(** The ellipses among a sequence of primitives, with their fill. *)
Definition ellipse_fills (ops : list DrawOp) : list (box * option rgba) :=
  omap (fun op => match op with
                  | Ellipse xy fill _ _ => Some (xy, fill)
                  | _ => None
                  end) ops.

Definition center_x (xy : box) : Z := let '(x0, _, x1, _) := xy in (x0 + x1) / 2.

Global Instance DrawOp_eq_dec : EqDecision DrawOp.
Proof. solve_decision. Defined.

(** Indices at which two primitive sequences differ. *)
Fixpoint diff_positions (l1 l2 : list DrawOp) : list nat :=
  match l1, l2 with
  | [], [] => []
  | a :: l1', b :: l2' =>
      let rest := map S (diff_positions l1' l2') in
      if bool_decide (a = b) then rest else 0%nat :: rest
  | _, _ => [0%nat]
  end.

(** Logical bar heights and accented bar of the feedback icon. *)
Definition feedback_heights (high : bool) : list Z :=
  if high then [120; 170; 230; 280] else [260; 210; 160; 110].
Definition feedback_accent (high : bool) : nat := if high then 3%nat else 0%nat.

(** A small input for the optimizer: a 50-byte opaque PNG whose re-encode
    is 60 bytes. *)
Definition demo_src : Path := ["assets"; "images"; "logo.png"].
Definition demo_data : list Byte.byte := repeat Byte.x01 50.
Definition demo_fs : gmap Path (list Byte.byte) := {[demo_src := demo_data]}.
Definition demo_bands (_ : list Byte.byte) : list string := ["R"; "G"; "B"].
Definition demo_encode (_ : string) (d : list Byte.byte) : list Byte.byte :=
  d ++ repeat Byte.x00 10.



(* ------------------------------------------------------------------ *)
(** ** Further definitions and lemmas: icon geometry, the optimizer's runs and [human_size] *)

Lemma quot_mono (a b : Z) (d1 d2 : positive) :
  a * Z.pos d2 <= b * Z.pos d1 -> Z.quot a (Z.pos d1) <= Z.quot b (Z.pos d2).
Proof.
  intros H.
  pose proof (Z.quot_rem' a (Z.pos d1)) as Ea.
  pose proof (Z.quot_rem' b (Z.pos d2)) as Eb.
  pose proof (Z.rem_bound_abs a (Z.pos d1) ltac:(lia)) as Ba.
  pose proof (Z.rem_bound_abs b (Z.pos d2) ltac:(lia)) as Bb.
  set (qa := Z.quot a (Z.pos d1)) in *. set (qb := Z.quot b (Z.pos d2)) in *.
  set (ra := Z.rem a (Z.pos d1)) in *. set (rb := Z.rem b (Z.pos d2)) in *.
  assert (Sa : (0 <= a -> 0 <= ra) /\ (a <= 0 -> ra <= 0)).
  { split; intros; [apply Z.rem_nonneg | apply Z.rem_nonpos]; lia. }
  assert (Sb : (0 <= b -> 0 <= rb) /\ (b <= 0 -> rb <= 0)).
  { split; intros; [apply Z.rem_nonneg | apply Z.rem_nonpos]; lia. }
  assert (Qa : (0 <= a -> 0 <= qa) /\ (a <= 0 -> qa <= 0)).
  { split; intros; [apply Z.quot_pos; lia|]. unfold qa.
    rewrite <- (Z.opp_involutive a), Z.quot_opp_l by lia.
    pose proof (Z.quot_pos (- a) (Z.pos d1)). lia. }
  clearbody qa qb ra rb.
  rewrite Z.abs_lt in Ba, Bb. simpl in Ba, Bb.
  destruct (Z.le_gt_cases 0 a), (Z.le_gt_cases 0 b); nia.
Qed.

Lemma draw_on (r : N) (w : World) (im : Image) (op : DrawOp) :
  heap w !! r = Some im ->
  draw (ImageDraw_Draw r "RGBA") op w = (tt, set_heap (<[r := paint [op] im]> (heap w)) w).
Proof.
  intros Hr. unfold draw; simpl. f_equal. f_equal. apply map_eq; intros k.
  destruct (decide (k = r)) as [->|Hk].
  - by rewrite lookup_alter_eq, lookup_insert_eq, Hr.
  - by rewrite lookup_alter_ne, lookup_insert_ne by congruence.
Qed.

Lemma for_draw_paint {A} (xs : list A) (f : A -> DrawOp) (r : N) (w : World) (im : Image) :
  heap w !! r = Some im ->
  for_ xs (fun x => draw (ImageDraw_Draw r "RGBA") (f x)) w
  = (tt, set_heap (<[r := paint (map f xs) im]> (heap w)) w).
Proof.
  revert w im. induction xs as [|x xs IH]; intros w im Hr; cbn [for_ map].
  - unfold mret, M_ret, set_heap. destruct w; simpl in *. by rewrite insert_id.
  - unfold mbind at 1, M_bind at 1. rewrite (draw_on r w im (f x) Hr).
    rewrite (IH _ (paint [f x] im)) by (simpl; apply lookup_insert_eq).
    by rewrite set_heap_insert_insert.
Qed.

(** The marker [i] of [icon_beats count]. *)
Definition beat_marker (count i : Z) : DrawOp :=
  let x := 256 - (count - 1) * 70 / 2 + i * 70 in
  Ellipse (_w (inject_Z (x - 22)), _w 220, _w (inject_Z (x + 22)), _w 264)
          (Some (if i =? count - 1 then ORANGE else SOFT_WHITE)) None 1.

Definition beats_baseline : DrawOp := Line [_w 130; _w 320; _w 382; _w 320] (Some WHITE) (_stroke 18) None.

Lemma icon_beats_spec (count : Z) :
  builder_spec (icon_beats count)
    (paint (map (beat_marker count) (range count) ++ [beats_baseline]) fresh_canvas).
Proof.
  intros w. unfold icon_beats, _new, ellipse, line.
  cbv [mbind M_bind alloc mret M_ret]. cbn beta iota zeta.
  rewrite (for_draw_paint (range count) (beat_marker count) (next_ref w) _ fresh_canvas)
    by (simpl; apply lookup_insert_eq).
  rewrite (draw_on (next_ref w) _ (paint (map (beat_marker count) (range count)) fresh_canvas))
    by (simpl; apply lookup_insert_eq).
  unfold set_heap; cbn [heap next_ref files dirs stdout].
  rewrite !insert_insert_eq, <- paint_app. reflexivity.
Qed.

Lemma ops_of_paint ops im : ops_of (im_pixels (paint ops im)) = ops_of (im_pixels im) ++ ops.
Proof.
  revert im. induction ops as [|op ops IH]; intros im; simpl; [by rewrite app_nil_r|].
  rewrite IH. simpl. by rewrite <- app_assoc.
Qed.

Lemma icon_beats_ops (count : Z) :
  builder_ops (icon_beats count) = map (beat_marker count) (range count) ++ [beats_baseline].
Proof.
  unfold builder_ops. rewrite (builder_spec_canvas _ _ empty_world (icon_beats_spec count)).
  rewrite ops_of_paint. reflexivity.
Qed.

Lemma _w_inject_Z (z : Z) : _w (inject_Z z) = 4 * z.
Proof.
  unfold _w, py_int, SCALE. cbn [Qmult Qnum Qden inject_Z].
  rewrite Z.quot_1_r. lia.
Qed.

Lemma omap_map_total {A B C} (f : B -> option C) (g : A -> B) (h : A -> C) (l : list A) :
  (forall x, f (g x) = Some (h x)) -> omap f (map g l) = map h l.
Proof.
  intros H. induction l as [|x l IH]; [done|]. cbn [map].
  change (omap f (g x :: map g l))
    with (match f (g x) with Some y => y :: omap f (map g l) | None => omap f (map g l) end).
  by rewrite H, IH.
Qed.

Lemma beats_half (count : Z) : (count - 1) * 70 / 2 = 35 * (count - 1).
Proof.
  replace ((count - 1) * 70) with (35 * (count - 1) * 2) by ring.
  apply Z.div_mul. lia.
Qed.

(** Box and fill of marker [i]. *)
Definition beat_fill (count i : Z) : box * option rgba :=
  let x := 256 - 35 * (count - 1) + i * 70 in
  ((4 * (x - 22), _w 220, 4 * (x + 22), _w 264),
   Some (if i =? count - 1 then ORANGE else SOFT_WHITE)).

Lemma beats_fills (count : Z) :
  ellipse_fills (builder_ops (icon_beats count)) = map (beat_fill count) (range count).
Proof.
  rewrite icon_beats_ops. unfold ellipse_fills. rewrite omap_app. simpl. rewrite app_nil_r.
  apply omap_map_total. intros i. unfold beat_marker, beat_fill. cbv zeta.
  rewrite beats_half, !_w_inject_Z. reflexivity.
Qed.

Lemma lookup_repeat_some {A} (x y : A) (n j : nat) : repeat x n !! j = Some y -> y = x.
Proof.
  revert j. induction n as [|n IH]; intros [|j] H; simpl in H; try discriminate.
  - by injection H.
  - exact (IH j H).
Qed.

Lemma center_4 (x y0 y1 : Z) : center_x (4 * (x - 22), y0, 4 * (x + 22), y1) = 4 * x.
Proof.
  unfold center_x. replace (4 * (x - 22) + 4 * (x + 22)) with (4 * x * 2) by lia.
  apply Z.div_mul. lia.
Qed.

(** The coordinates a primitive is given: box corners, line and polygon
    vertices, or the text anchor. *)
Definition op_coords (op : DrawOp) : list Z :=
  match op with
  | Ellipse (x0, y0, x1, y1) _ _ _ => [x0; y0; x1; y1]
  | Arc (x0, y0, x1, y1) _ _ _ _ => [x0; y0; x1; y1]
  | Line xy _ _ _ => xy
  | Polygon pts _ _ _ => concat (map (fun '(x, y) => [x; y]) pts)
  | RoundedRectangle (x0, y0, x1, y1) _ _ _ _ => [x0; y0; x1; y1]
  | Text (x, y) _ _ _ => [x; y]
  end.

Definition on_canvas (op : DrawOp) : Prop := Forall (fun c => 0 <= c <= CANVAS) (op_coords op).

Global Instance on_canvas_dec op : Decision (on_canvas op).
Proof. unfold on_canvas. apply _. Defined.

(** The directories [mkdir(parents=True)] ensures for [p]: [p] and its
    ancestors below the root. *)
Definition ancestors (p : Path) : gset Path :=
  list_to_set (map (fun n => take n p) (seq 1 (length p))).

Lemma entry_dirs target b w :
  icon_builder b -> dirs (main_body (target, b) w).2 = ancestors (parent target) ∪ dirs w.
Proof.
  intros Hb. destruct (icon_builder_shape b Hb) as [ops Hs].
  unfold main_body, mbind, M_bind, mret, M_ret. rewrite (Hs w).
  unfold _save, mbind, M_bind, mkdir_parents, deref, save, print; simpl. reflexivity.
Qed.

Lemma for_entries_dirs (es : list (Path * M N)) w :
  Forall (fun e => icon_builder e.2) es ->
  dirs (for_ es main_body w).2 = ⋃ (map (fun e => ancestors (parent e.1)) es) ∪ dirs w.
Proof.
  intros Hes. revert w. induction Hes as [|[p b] es Hb Hes IH]; intros w; cbn [for_].
  - cbn. set_solver.
  - unfold mbind at 1, M_bind at 1.
    pose proof (entry_dirs p b w Hb) as E.
    destruct (main_body (p, b) w) as [u w1]. cbn [snd] in E.
    rewrite IH, E. cbn [map union_list]. set_solver.
Qed.

Lemma string_compare_refl (s : string) : String.compare s s = Eq.
Proof.
  induction s as [|a s IH]; [done|]. simpl. unfold Ascii.compare. by rewrite N.compare_refl.
Qed.

Lemma string_compare_lt_trans (a b c : string) :
  String.compare a b = Lt -> String.compare b c = Lt -> String.compare a c = Lt.
Proof.
  revert b c. induction a as [|x a IH]; intros [|y b] [|z c]; cbn [String.compare]; try congruence.
  unfold Ascii.compare.
  destruct (N.compare_spec (N_of_ascii x) (N_of_ascii y)) as [E1|L1|G1];
  destruct (N.compare_spec (N_of_ascii y) (N_of_ascii z)) as [E2|L2|G2]; try congruence.
  - rewrite E1, E2, N.compare_refl. apply IH.
  - intros _ _. rewrite E1, (proj2 (N.compare_lt_iff _ _) L2). reflexivity.
  - intros _ _. rewrite <- E2, (proj2 (N.compare_lt_iff _ _) L1). reflexivity.
  - intros _ _. rewrite (proj2 (N.compare_lt_iff (N_of_ascii x) (N_of_ascii z))) by lia.
    reflexivity.
Qed.

Lemma path_leb_total (p q : Path) : path_leb p q = true \/ path_leb q p = true.
Proof.
  revert q. induction p as [|a p IH]; intros [|b q]; simpl; auto.
  rewrite (String.compare_antisym b a).
  destruct (String.compare a b); simpl; auto.
Qed.

Lemma path_leb_antisym (p q : Path) : path_leb p q = true -> path_leb q p = true -> p = q.
Proof.
  revert q. induction p as [|a p IH]; intros [|b q]; simpl; try congruence.
  rewrite (String.compare_antisym b a).
  destruct (String.compare a b) eqn:E; simpl; try congruence.
  apply String.compare_eq_iff in E as ->.
  intros H1 H2. f_equal. by apply IH.
Qed.

Lemma path_leb_trans (p q r : Path) : path_leb p q = true -> path_leb q r = true -> path_leb p r = true.
Proof.
  revert q r. induction p as [|a p IH]; intros [|b q] [|c r]; simpl; try congruence.
  destruct (String.compare a b) eqn:E1; try congruence;
  destruct (String.compare b c) eqn:E2; try congruence.
  - apply String.compare_eq_iff in E1 as ->. apply String.compare_eq_iff in E2 as ->.
    rewrite string_compare_refl. apply IH.
  - apply String.compare_eq_iff in E1 as ->. by rewrite E2.
  - apply String.compare_eq_iff in E2 as ->. by rewrite E1.
  - by rewrite (string_compare_lt_trans a b c E1 E2).
Qed.

Global Instance path_le_total : stdpp.base.Total path_le.
Proof. intros p q. apply path_leb_total. Qed.
Global Instance path_le_trans : Transitive path_le.
Proof. intros p q r. apply path_leb_trans. Qed.
Global Instance path_le_antisym : AntiSymm (=) path_le.
Proof. intros p q. apply path_leb_antisym. Qed.

Lemma discover_sources_NoDup fs ds : NoDup (discover_sources fs ds).
Proof.
  unfold discover_sources, rglob_png. rewrite merge_sort_Permutation.
  apply NoDup_filter, NoDup_filter, NoDup_elements.
Qed.

(** ** Optimizer: what one call writes *)

Lemma parent_with_name (p : Path) (n : string) : parent (with_name p n) = parent p.
Proof.
  unfold parent, with_name. destruct p as [|x p _] using rev_ind; [done|].
  rewrite removelast_last, !length_app. simpl.
  replace (length p + 1 - 1)%nat with (length p) by lia.
  by rewrite take_app_length, take_app_length.
Qed.

Lemma substring_app_r (s t : string) (m : nat) :
  substring (String.length s) m (s +:+ t) = substring 0 m t.
Proof. induction s as [|a s IH]; simpl; [done|]. exact IH. Qed.

Lemma substring_full (t : string) : substring 0 (String.length t) t = t.
Proof. induction t as [|a t IH]; simpl; [done|]. by rewrite IH. Qed.

Lemma ends_with_app (x suffix : string) : ends_with suffix (x +:+ suffix) = true.
Proof.
  unfold ends_with. rewrite string_length_app.
  replace (String.length x + String.length suffix - String.length suffix)%nat
    with (String.length x) by lia.
  rewrite substring_app_r, substring_full, String.eqb_refl. apply andb_true_intro.
  split; [apply Nat.leb_le; lia|done].
Qed.

Lemma name_variant (src : Path) : name (variant src) = stem (name src) +:+ ".web.png".
Proof. unfold name, variant, with_name. by rewrite last_snoc. Qed.

Lemma should_process_variant (src : Path) : should_process (variant src) = false.
Proof.
  unfold should_process. rewrite name_variant, ends_with_app.
  by repeat case_match.
Qed.

(** The bytes [optimize] leaves in the variant. *)
Definition opt_out (getbands : list Byte.byte -> list string)
    (encode_png : string -> list Byte.byte -> list Byte.byte) (data : list Byte.byte)
  : list Byte.byte :=
  let enc := encode_png (convert_mode getbands data) data in
  if decide (length data < length enc)%nat then data else enc.

Lemma optimize_eq' getbands encode_png fs src data :
  fs !! src = Some data ->
  optimize getbands encode_png fs src =
    Some (<[variant src := opt_out getbands encode_png data]> fs,
          (variant src, Z.of_nat (length data), Z.of_nat (length (opt_out getbands encode_png data)))).
Proof.
  intros Hsrc. rewrite (optimize_eq getbands encode_png fs src data Hsrc). unfold opt_out.
  destruct (decide _); [|done]. by rewrite insert_insert_eq.
Qed.

Lemma opt_out_le getbands encode_png data :
  (length (opt_out getbands encode_png data) <= length data)%nat.
Proof. unfold opt_out. destruct (decide _); lia. Qed.

Lemma optimize_None getbands encode_png fs src :
  optimize getbands encode_png fs src = None <-> fs !! src = None.
Proof.
  destruct (fs !! src) as [data|] eqn:E.
  - rewrite (optimize_eq' _ _ _ _ _ E). split; discriminate.
  - unfold optimize. rewrite E. done.
Qed.

(** ** Optimizer: the report and the totals *)

Definition sum_Z (l : list Z) : Z := foldr Z.add 0 l.

Definition red_of (before after : Z) : Q :=
  if before =? 0 then 0%Q else ((1 - inject_Z after / inject_Z before) * 100)%Q.

Lemma red_of_nonneg (before after : Z) : 0 <= after <= before -> (0 <= red_of before after)%Q.
Proof.
  intros Hab. unfold red_of. destruct (before =? 0) eqn:Hb; [apply Qle_refl|].
  apply Z.eqb_neq in Hb.
  assert (Hq : (inject_Z after / inject_Z before <= 1)%Q).
  { apply Qle_shift_div_r; [unfold Qlt; simpl; lia|].
    rewrite Qmult_1_l. rewrite <- Zle_Qle. lia. }
  apply Qmult_le_0_compat; [|discriminate].
  apply Qle_minus_iff in Hq. exact Hq.
Qed.

Lemma run_loop_inv getbands encode_png srcs :
  forall fs tb ta cnt printed fs' tb' ta' cnt' printed',
  run_loop getbands encode_png fs srcs tb ta cnt printed = Some (fs', tb', ta', cnt', printed') ->
  exists reps, printed' = printed ++ reps /\ map rep_src reps = srcs /\
    Forall (fun r => rep_dst r = variant (rep_src r) /\ 0 <= rep_after r <= rep_before r /\
                     rep_reduction r = red_of (rep_before r) (rep_after r)) reps /\
    tb' = tb + sum_Z (map rep_before reps) /\ ta' = ta + sum_Z (map rep_after reps) /\
    cnt' = cnt + Z.of_nat (length srcs) /\
    (forall k, (forall s, s ∈ srcs -> k <> variant s) -> fs' !! k = fs !! k).
Proof.
  induction srcs as [|src srcs IH]; intros fs tb ta cnt printed fs' tb' ta' cnt' printed' H.
  - injection H as <- <- <- <- <-. exists []. rewrite app_nil_r. simpl.
    repeat split; try lia; auto.
  - cbn [run_loop] in H.
    destruct (fs !! src) as [data|] eqn:E;
      [|apply (optimize_None getbands encode_png) in E; rewrite E in H; discriminate].
    rewrite (optimize_eq' _ _ _ _ _ E) in H. cbn [mbind option_bind] in H.
    rewrite reduction_total in H. cbn [mbind option_bind] in H.
    destruct (IH _ _ _ _ _ _ _ _ _ _ H) as (reps & Hp & Hs & Hf & Hb & Ha & Hc & Hk).
    eexists (_ :: reps). rewrite Hp, <- app_assoc. split; [reflexivity|].
    split; [simpl; by rewrite Hs|]. split.
    { constructor; [|exact Hf]. simpl. split; [done|]. split; [|reflexivity].
      pose proof (opt_out_le getbands encode_png data). lia. }
    cbn [map sum_Z foldr length]. split; [rewrite Hb; unfold sum_Z; simpl; lia|].
    split; [rewrite Ha; unfold sum_Z; simpl; lia|]. split; [lia|].
    intros k Hnk. rewrite Hk by (intros s Hs'; apply Hnk; by right).
    apply lookup_insert_ne. apply not_eq_sym, Hnk. by left.
Qed.

(** ** Optimizer: effect on later runs *)

Lemma discover_sources_ext (fs1 fs2 : gmap Path (list Byte.byte)) (ds : gset Path) :
  (forall p, should_process p = true -> fs1 !! p = fs2 !! p) ->
  discover_sources fs1 ds = discover_sources fs2 ds.
Proof.
  intros Hext. apply (Sorted_unique path_le).
  - apply Sorted_merge_sort. apply _.
  - apply Sorted_merge_sort. apply _.
  - apply NoDup_Permutation; [apply discover_sources_NoDup..|].
    intros p. rewrite !discover_sources_spec.
    split; intros (Hs & H1 & H2 & H3 & H4); (split; [|tauto]);
      (destruct Hs as [Hs|Hs]; [left|by right]); [rewrite <- Hext | rewrite Hext]; done.
Qed.

(** ** Optimizer: the result of a run, and running it again *)



Section InsertAll.
Context (val : Path -> list Byte.byte).




End InsertAll.





(** [for next_unit in units[1:]]: stop below 1024, otherwise divide by 1024
    and move to the next unit. *)
Fixpoint hs_loop (value : Q) (unit : string) (rest : list string) : Q * string :=
  match rest with
  | [] => (value, unit)
  | next_unit :: rest' =>
      if Qlt_le_dec value 1024 then (value, unit)
      else hs_loop (value / 1024) next_unit rest'
  end.

(** [f"{value:.1f}"]: the sign, then the magnitude rounded half to even to
    one decimal. *)
Definition fmt_1f (value : Q) : string :=
  let n := py_round (Qabs value * 10) in
  (if Qlt_le_dec value 0 then "-" else "") +:+ pretty (n / 10) +:+ "." +:+ pretty (n mod 10).

(** [def human_size(size)]; [float(size)] and the divisions by 1024 are exact
    for [|size| <= 2^53], where the rationals below are the floats. *)
Definition human_size (size : Z) : string :=
  let units := ["B"; "KB"; "MB"] in
  let '(value, unit) := hs_loop (inject_Z size) "B" (tail units) in
  if String.eqb unit "B" then pretty (py_int value) +:+ unit
  else fmt_1f value +:+ unit.

Lemma py_round_close (x : Q) : (Qabs (inject_Z (py_round x) - x) <= 1 # 2)%Q.
Proof.
  destruct x as [p d]. unfold py_round. cbn [Qnum Qden].
  pose proof (Z.div_mod p (Z.pos d) ltac:(lia)) as Hdm.
  pose proof (Z.mod_pos_bound p (Z.pos d) ltac:(lia)) as Hb.
  set (fl := p / Z.pos d) in *. set (r := p mod Z.pos d) in *.
  replace (p - fl * Z.pos d) with r by lia.
  assert (Hq : forall z, (Qabs (inject_Z z - (p # d)) <= 1 # 2)%Q <-> 2 * Z.abs (z * Z.pos d - p) <= Z.pos d).
  { intros z. unfold Qabs, Qminus, Qplus, Qopp, Qle, inject_Z. cbn [Qnum Qden].
    change (Z.pos (1 * d)) with (Z.pos d). replace (z * Z.pos d + - p * 1) with (z * Z.pos d - p) by lia. lia. }
  destruct (Z.compare_spec (2 * r) (Z.pos d)); [destruct (Z.even fl)|..]; apply Hq; nia.
Qed.

Lemma fmt_1f_pos (v : Q) : (0 <= v)%Q ->
  fmt_1f v = pretty (py_round (v * 10) / 10) +:+ "." +:+ pretty (py_round (v * 10) mod 10).
Proof.
  intros Hv. unfold fmt_1f.
  replace (Qabs v) with v
    by (destruct v as [p d]; unfold Qle in Hv; cbn in Hv; unfold Qabs; f_equal; lia).
  destruct (Qlt_le_dec v 0) as [Hn|_]; [|reflexivity].
  exfalso. apply (Qlt_not_le _ _ Hn Hv).
Qed.

Lemma py_round_tenth (v : Q) :
  (Qabs (inject_Z (py_round (v * 10)) / 10 - v) <= 1 # 20)%Q.
Proof.
  pose proof (py_round_close (v * 10)) as H.
  set (n := inject_Z (py_round (v * 10))) in *.
  assert (E : (n / 10 - v == (n - v * 10) * (1 # 10))%Q) by (field; discriminate).
  rewrite E, Qabs_Qmult. change (Qabs (1 # 10)) with (1 # 10)%Q.
  change (1 # 20)%Q with ((1 # 2) * (1 # 10))%Q.
  apply Qmult_le_compat_r; [exact H|discriminate].
Qed.

Lemma Qlt_le_dec_lt (a b : Q) : (a < b)%Q -> exists H, Qlt_le_dec a b = left H.
Proof. intros H. destruct (Qlt_le_dec a b) as [H'|H']; [by eexists|]. exfalso. by apply (Qlt_not_le _ _ H). Qed.

Lemma Qlt_le_dec_le (a b : Q) : (b <= a)%Q -> exists H, Qlt_le_dec a b = right H.
Proof. intros H. destruct (Qlt_le_dec a b) as [H'|H']; [|by eexists]. exfalso. by apply (Qlt_not_le _ _ H'). Qed.

Ltac qlia := unfold Qlt, Qle, Qdiv, Qmult, Qinv, inject_Z; cbn [Qnum Qden]; lia.

(** A source listed for the optimizer that is not in [demo_fs]. *)
Definition demo_missing : Path := ["assets"; "images"; "gone.png"].

(** A directory of the asset tree next to [demo_fs]'s file. *)
Definition demo_dirs : gset Path := {[ ["assets"; "images"; "web"] ]}.

Lemma demo_run_eq :
  run demo_bands demo_encode demo_fs [demo_src] =
    Some (<[variant demo_src := demo_data]> demo_fs,
          [mkReport demo_src (variant demo_src) 50 50 (red_of 50 50)],
          mkTotal 1 50 50 (red_of 50 50)).
Proof. vm_compute. reflexivity. Qed.

(** ** Claims *)

(** C1 (refuted as stated): the scaler does not round; at [v = 2/5],
    [int(1.6) = 1] while [round(1.6) = 2]. *)
Lemma C1_w_not_round : ~ (forall v : Q, _w v = py_round (v * inject_Z SCALE)).
Proof. intros H. specialize (H (2#5)). vm_compute in H. discriminate. Qed.

(** C1 (as amended): [_w v = int(v * 4)] truncates [4 v] toward zero: its
    magnitude is at most [|4 v|] and within one of it, and it has the sign
    of [4 v]; on integer arguments (every call site) it is [4 v], which is
    also [round(4 v)]. *)
Theorem C1_w_truncates :
  (forall v : Q,
     (Qabs (inject_Z (_w v)) <= Qabs (v * 4))%Q /\
     (Qabs (v * 4) < Qabs (inject_Z (_w v)) + 1)%Q /\
     (0 <= inject_Z (_w v) * (v * 4))%Q) /\
  (forall n : Z, _w (inject_Z n) = 4 * n /\ py_round (inject_Z n * 4) = 4 * n).
Proof.
  split.
  - intros [p d]. unfold _w, py_int, SCALE, Qmult, Qabs, Qle, Qlt, inject_Z; simpl.
    rewrite !Z.mul_1_r, ?Pos.mul_1_r, ?Pos.mul_1_l.
    pose proof (Z.quot_rem' (p * 4) (Zpos d)) as Hqr.
    pose proof (Z.rem_bound_abs (p * 4) (Zpos d) ltac:(lia)) as Hb.
    pose proof (Z.rem_sign_mul (p * 4) (Zpos d) ltac:(lia)) as Hs.
    set (q := Z.quot (p * 4) (Zpos d)) in *.
    set (r := Z.rem (p * 4) (Zpos d)) in *.
    assert (Hd : 0 < Zpos d) by lia. simpl (Z.abs (Zpos d)) in Hb.
    destruct (Z.le_gt_cases 0 p) as [Hp|Hp].
    + assert (0 <= r) by (pose proof (Z.rem_bound_pos (p * 4) (Zpos d)); lia).
      assert (0 <= q) by nia.
      rewrite (Z.abs_eq (p * 4)), (Z.abs_eq q) by lia. nia.
    + assert (r <= 0) by nia.
      assert (q <= 0) by nia.
      rewrite (Z.abs_neq (p * 4)), (Z.abs_neq q) by lia. nia.
  - intros n. unfold _w, py_int, py_round, SCALE, inject_Z, Qmult; simpl.
    change (Z.pos (1 * 1)) with 1.
    rewrite Z.quot_1_r, Z.div_1_r, Z.mul_1_r.
    replace (2 * (n * 4 - n * 4)) with 0 by lia. simpl. split; lia.
Qed.

(** C2: every builder's canvas is an RGBA image of side [CANVAS = 2048]
    created filled with [(0, 0, 0, 0)]; every file the entry point writes
    holds a 512x512 RGBA image. *)
Theorem C2_canvas_and_output_shape :
  CANVAS = 2048 /\
  (forall (b : M N) (w : World), icon_builder b ->
     exists im, canvas_of b w = Some im /\ im_mode im = "RGBA" /\
                im_size im = (CANVAS, CANVAS) /\ base_color (im_pixels im) = (0, 0, 0, 0)) /\
  (forall (w : World) (p : Path) (b : M N), (p, b) ∈ ICON_BUILD ->
     exists out, files (main w).2 !! p = Some out /\ im_mode out = "RGBA" /\
                 im_size out = (512, 512)).
Proof.
  split; [reflexivity|split].
  - intros b w Hb. destruct (icon_builder_shape b Hb) as [ops Hs].
    exists (paint ops fresh_canvas). split; [by apply builder_spec_canvas|].
    apply (paint_fields ops fresh_canvas).
  - intros w p b Hin. destruct (main_effect w) as (hp & ds & ->). cbn [snd files].
    exists (saved_image b). split.
    + apply write_all_entry; [apply ICON_BUILD_paths_NoDup | done].
    + assert (Hb : icon_builder b).
      { pose proof ICON_BUILD_builders as HF. rewrite Forall_forall in HF.
        exact (HF (p, b) Hin). }
      destruct (saved_image_fields b Hb) as (? & ? & _). done.
Qed.

Lemma C2_canvas_and_output_shape_witness :
  (exists im, canvas_of icon_record empty_world = Some im /\ im_mode im = "RGBA" /\
     im_size im = (CANVAS, CANVAS) /\ base_color (im_pixels im) = (0, 0, 0, 0)) /\
  (exists out, files (main empty_world).2 !! (ASSETS ++ ["record_icon.png"]) = Some out /\
     im_mode out = "RGBA" /\ im_size out = (512, 512)).
Proof.
  split.
  - apply (proj1 (proj2 C2_canvas_and_output_shape) icon_record empty_world). constructor.
  - apply (proj2 (proj2 C2_canvas_and_output_shape) empty_world _ icon_record).
    unfold ICON_BUILD. do 11 apply list_elem_of_further. apply list_elem_of_here.
Defined.

(** C3: with [count = 2] and [count = 4] the beats icon draws exactly
    [count] marker ellipses, 70 logical units apart, whose outer centres
    are symmetric about [x = 256]; the last is ORANGE, the others
    SOFT_WHITE. *)
Theorem C3_beats_layout (count : Z) :
  count = 2 \/ count = 4 ->
  let es := ellipse_fills (builder_ops (icon_beats count)) in
  length es = Z.to_nat count /\
  (forall (i : nat) xy1 xy2 c1 c2, es !! i = Some (xy1, c1) -> es !! S i = Some (xy2, c2) ->
     center_x xy2 - center_x xy1 = _w 70) /\
  (exists xy0 xyl c0 cl, head es = Some (xy0, c0) /\ last es = Some (xyl, cl) /\
     center_x xy0 + center_x xyl = 2 * _w 256) /\
  map snd es = repeat (Some SOFT_WHITE) (Z.to_nat count - 1) ++ [Some ORANGE].
Proof.
  intros [-> | ->]; vm_compute; (split; [reflexivity|split; [|split]]);
    try (do 4 eexists; split; [reflexivity|split; [reflexivity|reflexivity]]);
    try reflexivity;
    intros i xy1 xy2 c1 c2 H1 H2;
    (do 4 (destruct i as [|i]; simpl in H1, H2; try discriminate;
           try (injection H1 as <- <-; injection H2 as <- <-; reflexivity))).
Qed.

Lemma C3_beats_layout_witness :
  let es := ellipse_fills (builder_ops (icon_beats 4)) in
  length es = 4%nat /\
  (forall (i : nat) xy1 xy2 c1 c2, es !! i = Some (xy1, c1) -> es !! S i = Some (xy2, c2) ->
     center_x xy2 - center_x xy1 = _w 70) /\
  (exists xy0 xyl c0 cl, head es = Some (xy0, c0) /\ last es = Some (xyl, cl) /\
     center_x xy0 + center_x xyl = 2 * _w 256) /\
  map snd es = repeat (Some SOFT_WHITE) 3 ++ [Some ORANGE].
Proof. apply (C3_beats_layout 4). right. reflexivity. Defined.

(** C4 (refuted as stated): swapping the feedback builder's boolean
    changes all four bars (their heights), not one element. *)
Lemma C4_feedback_swap_changes_four_bars :
  ~ (length (diff_positions (builder_ops (icon_feedback true))
                            (builder_ops (icon_feedback false))) = 1%nat /\
     length (diff_positions (builder_ops (icon_gender true))
                            (builder_ops (icon_gender false))) = 1%nat).
Proof. vm_compute. intros [H _]. discriminate. Qed.

(** C4 (as amended): the gender flag changes exactly the second primitive
    (a BLUE arc for female, a BLUE rounded rectangle for male); the
    feedback flag selects both the height profile and the accented bar,
    while bar positions, widths, baseline and radius stay the same. *)
Theorem C4_boolean_variants :
  diff_positions (builder_ops (icon_gender true)) (builder_ops (icon_gender false)) = [1%nat] /\
  (exists xy width, builder_ops (icon_gender true) !! 1%nat = Some (Arc xy 205 335 (Some BLUE) width)) /\
  (exists xy radius, builder_ops (icon_gender false) !! 1%nat =
                       Some (RoundedRectangle xy radius (Some BLUE) None 1)) /\
  (forall high : bool,
     length (builder_ops (icon_feedback high)) = 4%nat /\
     forall (i : nat) (h : Z), feedback_heights high !! i = Some h ->
       let x := _w 112 + Z.of_nat i * (_w 54 + _w 34) in
       builder_ops (icon_feedback high) !! i =
         Some (RoundedRectangle (x, _w 390 - _w (inject_Z h), x + _w 54, _w 390) (_w 16)
                 (Some (if decide (i = feedback_accent high) then ORANGE else SOFT_WHITE))
                 None 1)).
Proof.
  split; [vm_compute; reflexivity|].
  split; [do 2 eexists; vm_compute; reflexivity|].
  split; [do 2 eexists; vm_compute; reflexivity|].
  intros high. split; [destruct high; vm_compute; reflexivity|].
  intros i h Hh.
  destruct high;
    (do 4 (destruct i as [|i]; [simpl in Hh; injection Hh as <-; vm_compute; reflexivity|]));
    simpl in Hh; discriminate.
Qed.

Lemma C4_boolean_variants_witness :
  let x := _w 112 + Z.of_nat 0 * (_w 54 + _w 34) in
  builder_ops (icon_feedback false) !! 0%nat =
    Some (RoundedRectangle (x, _w 390 - _w (inject_Z 260), x + _w 54, _w 390) (_w 16)
            (Some (if decide (0%nat = feedback_accent false) then ORANGE else SOFT_WHITE))
            None 1).
Proof.
  exact (proj2 ((proj2 (proj2 (proj2 C4_boolean_variants))) false) 0%nat 260 eq_refl).
Defined.

(** C7: a builder's canvas does not depend on the state it is invoked in
    (in particular a second invocation right after the first paints the
    same canvas), and the builder changes no file, directory, output or
    existing heap object. *)
Theorem C7_builders_deterministic (b : M N) (w1 w2 : World) :
  icon_builder b ->
  canvas_of b w1 = canvas_of b w2 /\
  canvas_of b w1 = canvas_of b (b w1).2 /\
  files (b w1).2 = files w1 /\ dirs (b w1).2 = dirs w1 /\ stdout (b w1).2 = stdout w1 /\
  (forall k, k <> next_ref w1 -> heap (b w1).2 !! k = heap w1 !! k).
Proof.
  intros Hb. destruct (icon_builder_shape b Hb) as [ops Hs].
  rewrite !(builder_spec_canvas _ _ _ Hs). rewrite (Hs w1). simpl.
  repeat split. intros k Hk. by apply lookup_insert_ne.
Qed.

Lemma C7_builders_deterministic_witness :
  canvas_of (icon_beats 2) empty_world
    = canvas_of (icon_beats 2) (mkWorld ∅ 7%N ∅ ∅ ["generated x"]) /\
  canvas_of (icon_beats 2) empty_world = canvas_of (icon_beats 2) (icon_beats 2 empty_world).2 /\
  files (icon_beats 2 empty_world).2 = files empty_world /\
  dirs (icon_beats 2 empty_world).2 = dirs empty_world /\
  stdout (icon_beats 2 empty_world).2 = stdout empty_world /\
  (forall k, k <> next_ref empty_world ->
     heap (icon_beats 2 empty_world).2 !! k = heap empty_world !! k).
Proof. apply C7_builders_deterministic. constructor. Defined.

(** C8: [_save] replaces whatever the destination held by the new image
    and touches no other file; the files the entry point writes do not
    depend on the state it starts in, so a second run leaves the file
    system exactly as the first run left it. *)
Theorem C8_save_overwrites_and_rerun_idempotent :
  (forall (w : World) (img : N) (target : Path),
     files (_save img target w).2 !! target =
       Some (Image_resize (default (Image_new "RGBA" (0, 0) TRANSPARENT) (heap w !! img))
                          (SIZE, SIZE) LANCZOS) /\
     (forall k, k <> target -> files (_save img target w).2 !! k = files w !! k)) /\
  (forall (w1 w2 : World) (p : Path), p ∈ map fst ICON_BUILD ->
     files (main w1).2 !! p = files (main w2).2 !! p) /\
  (forall w : World, files (main (main w).2).2 = files (main w).2).
Proof.
  split; [|split].
  - intros w img target. unfold _save, mbind, M_bind, mkdir_parents, deref, save; simpl.
    split; [apply lookup_insert_eq|]. intros k Hk. by apply lookup_insert_ne.
  - intros w1 w2 p Hp.
    destruct (main_effect w1) as (hp1 & ds1 & ->). destruct (main_effect w2) as (hp2 & ds2 & ->).
    cbn [snd files]. by apply write_all_in.
  - intros w. destruct (main_effect w) as (hp1 & ds1 & E1). rewrite E1. cbn [snd files].
    match goal with |- context [main ?w'] => destruct (main_effect w') as (hp2 & ds2 & ->) end.
    cbn [snd files]. apply write_all_idem.
Qed.

Lemma C8_save_overwrites_and_rerun_idempotent_witness :
  files (main empty_world).2 !! (ASSETS ++ ["Stop_icon.png"]) =
  files (main (mkWorld ∅ 3%N ∅ ∅ [])).2 !! (ASSETS ++ ["Stop_icon.png"]).
Proof.
  apply (proj1 (proj2 C8_save_overwrites_and_rerun_idempotent)).
  apply (bool_decide_unpack _). vm_compute. reflexivity.
Defined.

(** C9: the entry point runs every registry entry once, in order: it
    prints ["generated " ++ relative path] for each entry, allocates one
    canvas per entry, and leaves each registered path holding the image
    its builder renders; the registered paths are pairwise distinct. *)
Theorem C9_main_visits_each_entry_once (w : World) :
  let w' := (main w).2 in
  stdout w' = stdout w ++ map (fun e => "generated " +:+ relative_to_root e.1) ICON_BUILD /\
  next_ref w' = (next_ref w + N.of_nat (length ICON_BUILD))%N /\
  NoDup (map fst ICON_BUILD) /\
  (forall p b, (p, b) ∈ ICON_BUILD -> files w' !! p = Some (saved_image b)).
Proof.
  destruct (main_effect w) as (hp & ds & E). cbv zeta. rewrite E. cbn [snd files stdout next_ref].
  split; [reflexivity|]. split; [reflexivity|]. split; [apply ICON_BUILD_paths_NoDup|].
  intros p b Hin. apply write_all_entry; [apply ICON_BUILD_paths_NoDup | done].
Qed.

Lemma C9_main_visits_each_entry_once_witness :
  files (main empty_world).2 !! (ASSETS ++ ["record_icon.png"]) = Some (saved_image icon_record).
Proof.
  apply (proj2 (proj2 (proj2 (C9_main_visits_each_entry_once empty_world)))).
  unfold ICON_BUILD. do 11 apply list_elem_of_further. apply list_elem_of_here.
Defined.

(** C5: when the re-encode is larger than the source, the variant is a
    copy of the source and the reported reduction is 0; in every case the
    variant is no larger than the source. *)
Theorem C5_copy_fallback (getbands : list Byte.byte -> list string)
    (encode_png : string -> list Byte.byte -> list Byte.byte)
    (fs : gmap Path (list Byte.byte)) (src : Path) (data : list Byte.byte) :
  fs !! src = Some data ->
  let enc := encode_png (convert_mode getbands data) data in
  (exists fs' after bs,
     optimize getbands encode_png fs src = Some (fs', (variant src, Z.of_nat (length data), after)) /\
     fs' !! variant src = Some bs /\ after = Z.of_nat (length bs) /\
     after <= Z.of_nat (length data)) /\
  ((length data < length enc)%nat ->
     optimize getbands encode_png fs src =
       Some (<[variant src := data]> (<[variant src := enc]> fs),
             (variant src, Z.of_nat (length data), Z.of_nat (length data))) /\
     exists red tot,
       run getbands encode_png fs [src] =
         Some (<[variant src := data]> (<[variant src := enc]> fs),
               [mkReport src (variant src) (Z.of_nat (length data)) (Z.of_nat (length data)) red],
               tot) /\
       (red == 0)%Q).
Proof.
  intros Hsrc enc. pose proof (optimize_eq getbands encode_png fs src data Hsrc) as E.
  cbv zeta in E. fold enc in E. split.
  - destruct (decide (length data < length enc)%nat) as [Hlt|Hge];
      (do 3 eexists; split; [exact E|]; split; [apply lookup_insert_eq|]; split; [reflexivity|lia]).
  - intros Hlt. rewrite decide_True in E by exact Hlt. split; [exact E|].
    unfold run. cbn [run_loop]. rewrite E. cbn [mbind option_bind].
    rewrite reduction_total. cbn [mbind option_bind].
    rewrite reduction_total. cbn [mbind option_bind].
    do 2 eexists. split; [reflexivity|].
    destruct (Z.of_nat (length data) =? 0) eqn:Hz; [reflexivity|].
    apply Z.eqb_neq in Hz.
    assert (Hd : (inject_Z (Z.of_nat (length data)) / inject_Z (Z.of_nat (length data)) == 1)%Q).
    { field. unfold Qeq; simpl; lia. }
    rewrite Hd. reflexivity.
Qed.

Lemma C5_copy_fallback_witness :
  let enc := demo_encode (convert_mode demo_bands demo_data) demo_data in
  optimize demo_bands demo_encode demo_fs demo_src =
    Some (<[variant demo_src := demo_data]> (<[variant demo_src := enc]> demo_fs),
          (variant demo_src, Z.of_nat (length demo_data), Z.of_nat (length demo_data))) /\
  exists red tot,
    run demo_bands demo_encode demo_fs [demo_src] =
      Some (<[variant demo_src := demo_data]> (<[variant demo_src := enc]> demo_fs),
            [mkReport demo_src (variant demo_src) (Z.of_nat (length demo_data))
                      (Z.of_nat (length demo_data)) red],
            tot) /\
    (red == 0)%Q.
Proof.
  exact (proj2 (C5_copy_fallback demo_bands demo_encode demo_fs demo_src demo_data eq_refl)
               ltac:(apply Nat.ltb_lt; vm_compute; reflexivity)).
Defined.




(** C10: the percentage is [0] when the before-size is [0] and is a
    division by the non-zero before-size otherwise; [run] therefore never
    fails on its reductions: on no sources it reports a zero total, and on
    sources that exist it reports one line per source, each line and the
    total having reduction [0] when their before-size is [0]. *)
Theorem C10_reduction_never_divides_by_zero :
  (forall before after, before = 0 -> reduction before after = Some 0%Q) /\
  (forall before after, before <> 0 ->
     exists q, py_truediv after before = Some q /\
               reduction before after = Some ((1 - q) * 100)%Q) /\
  (forall getbands encode_png fs,
     run getbands encode_png fs [] = Some (fs, [], mkTotal 0 0 0 0%Q)) /\
  (forall getbands encode_png fs sources,
     Forall (fun s => is_Some (fs !! s)) sources ->
     exists fs' printed tot,
       run getbands encode_png fs sources = Some (fs', printed, tot) /\
       length printed = length sources /\
       Forall (fun r => rep_before r = 0 -> rep_reduction r = 0%Q) printed /\
       (tot_before tot = 0 -> tot_reduction tot = 0%Q)).
Proof.
  split; [|split; [|split]].
  - intros before after ->. reflexivity.
  - intros before after Hb. unfold reduction, py_truediv.
    rewrite (proj2 (Z.eqb_neq before 0) Hb). eexists. split; reflexivity.
  - intros getbands encode_png fs. reflexivity.
  - intros getbands encode_png fs sources Hall.
    destruct (run_loop_some getbands encode_png sources fs 0 0 0 [] Hall)
      as (fs' & tb & ta & cnt & printed & E & Hlen & Hrep).
    unfold run. rewrite E. cbn [mbind option_bind]. rewrite reduction_total.
    cbn [mbind option_bind]. do 3 eexists. split; [reflexivity|].
    split; [exact Hlen|]. split; [apply Hrep; constructor|].
    cbn [tot_before tot_reduction]. intros ->. reflexivity.
Qed.

Lemma C10_reduction_never_divides_by_zero_witness :
  reduction 0 0 = Some 0%Q /\
  (exists q, py_truediv 60 50 = Some q /\ reduction 50 60 = Some ((1 - q) * 100)%Q) /\
  exists fs' printed tot,
    run demo_bands demo_encode demo_fs [demo_src] = Some (fs', printed, tot) /\
    length printed = length [demo_src] /\
    Forall (fun r => rep_before r = 0 -> rep_reduction r = 0%Q) printed /\
    (tot_before tot = 0 -> tot_reduction tot = 0%Q).
Proof.
  split; [|split].
  - exact (proj1 C10_reduction_never_divides_by_zero 0 0 eq_refl).
  - exact (proj1 (proj2 C10_reduction_never_divides_by_zero) 50 60 ltac:(discriminate)).
  - exact (proj2 (proj2 (proj2 C10_reduction_never_divides_by_zero)) demo_bands demo_encode
             demo_fs [demo_src] ltac:(constructor; [eexists; reflexivity | constructor])).
Defined.

(** ** Further properties of the two scripts *)

(** X1: [_w] is monotone: a larger logical value never gives a smaller canvas coordinate. *)
Lemma _w_mono (v1 v2 : Q) : (v1 <= v2)%Q -> _w v1 <= _w v2.
Proof.
  intros H. unfold _w, py_int, SCALE.
  destruct v1 as [p1 q1], v2 as [p2 q2]. unfold Qle in H. cbn [Qmult Qnum Qden inject_Z] in *.
  apply quot_mono. rewrite !Pos2Z.inj_mul. nia.
Qed.

Lemma _w_mono_witness : (1 <= 3 # 2)%Q /\ _w 1 <= _w (3 # 2).
Proof.
  split; [unfold Qle; simpl; lia|].
  apply (_w_mono 1 (3 # 2)). unfold Qle; simpl; lia.
Defined.

(** X2: for every [count >= 1], [icon_beats count] draws exactly [count] marker ellipses, spaced [_w 70] apart, centred on [x = 256], all [SOFT_WHITE] except the last, which is [ORANGE]. *)
Theorem icon_beats_layout_any_count (count : Z) :
  1 <= count ->
  let es := ellipse_fills (builder_ops (icon_beats count)) in
  length es = Z.to_nat count /\
  (forall (i : nat) xy1 xy2 c1 c2, es !! i = Some (xy1, c1) -> es !! S i = Some (xy2, c2) ->
     center_x xy2 - center_x xy1 = _w 70) /\
  (exists xy0 xyl c0 cl, head es = Some (xy0, c0) /\ last es = Some (xyl, cl) /\
     center_x xy0 + center_x xyl = 2 * _w 256) /\
  map snd es = repeat (Some SOFT_WHITE) (Z.to_nat count - 1) ++ [Some ORANGE].
Proof.
  intros Hc es. unfold es. rewrite beats_fills. unfold range.
  assert (Hsplit : seqZ 0 count = seqZ 0 (Z.of_nat (Z.to_nat count - 1)) ++ [count - 1]).
  { replace count with (Z.of_nat (S (Z.to_nat count - 1))) at 1 by lia.
    rewrite seqZ_S. f_equal. f_equal. lia. }
  split; [by rewrite length_map, length_seqZ|]. split; [|split].
  - intros i xy1 xy2 c1 c2 H1 H2.
    rewrite list_lookup_fmap in H1, H2.
    destruct (seqZ 0 count !! i) as [a|] eqn:Ea; [|discriminate].
    destruct (seqZ 0 count !! S i) as [b|] eqn:Eb; [|discriminate].
    apply lookup_seqZ in Ea as [-> _]. apply lookup_seqZ in Eb as [-> _].
    simpl in H1, H2. injection H1 as <- _. injection H2 as <- _.
    rewrite !center_4. vm_compute (_w 70). lia.
  - exists (beat_fill count 0).1, (beat_fill count (count - 1)).1,
      (beat_fill count 0).2, (beat_fill count (count - 1)).2.
    split; [|split].
    + rewrite (seqZ_cons 0 count) by lia. reflexivity.
    + rewrite Hsplit, map_app. cbn [map]. by rewrite last_snoc.
    + unfold beat_fill. cbn [fst]. rewrite !center_4. vm_compute (_w 256). lia.
  - rewrite Hsplit, !map_app. cbn [map].
    f_equal; [|unfold beat_fill; cbn [snd]; by rewrite Z.eqb_refl].
    apply list_eq_same_length with (n := (Z.to_nat count - 1)%nat).
    + by rewrite repeat_length.
    + rewrite !length_map, length_seqZ. lia.
    + intros j x y _ Hx Hy. apply lookup_repeat_some in Hy as ->.
      rewrite list_lookup_fmap, list_lookup_fmap in Hx.
      destruct (seqZ _ _ !! j) as [a|] eqn:Ea; [|discriminate].
      apply lookup_seqZ in Ea as [-> Hj]. simpl in Hx. injection Hx as <-.
      rewrite (proj2 (Z.eqb_neq _ _)) by lia. reflexivity.
Qed.

Lemma icon_beats_layout_any_count_witness :
  1 <= 3 /\ length (ellipse_fills (builder_ops (icon_beats 3))) = 3%nat.
Proof. split; [lia|]. exact (proj1 (icon_beats_layout_any_count 3 ltac:(lia))). Defined.

(** X3: for [count <= 0], [icon_beats count] draws no marker, only the baseline. *)
Theorem icon_beats_no_markers (count : Z) :
  count <= 0 ->
  builder_ops (icon_beats count) = [Line [_w 130; _w 320; _w 382; _w 320] (Some WHITE) (_stroke 18) None].
Proof. intros Hc. rewrite icon_beats_ops. unfold range. by rewrite seqZ_nil. Qed.

Lemma icon_beats_no_markers_witness :
  0 <= 0 /\ builder_ops (icon_beats 0) = [Line [_w 130; _w 320; _w 382; _w 320] (Some WHITE) (_stroke 18) None].
Proof. split; [lia|]. exact (icon_beats_no_markers 0 ltac:(lia)). Defined.

(** X4: for [count >= 1], every coordinate [icon_beats count] draws lies within the canvas exactly when [count <= 7]; from 8 markers on, the first thing drawn is the first marker's ellipse, whose left edge [x0] is negative. *)
Theorem icon_beats_on_canvas_iff (count : Z) :
  1 <= count ->
  (Forall on_canvas (builder_ops (icon_beats count)) <-> count <= 7) /\
  (8 <= count -> exists x0 y0 x1 y1 fill,
     head (builder_ops (icon_beats count)) = Some (Ellipse (x0, y0, x1, y1) fill None 1) /\ x0 < 0).
Proof.
  intros Hc. split.
  2:{ intros H8. rewrite icon_beats_ops. unfold range. rewrite (seqZ_cons 0 count) by lia.
      cbn [map app head]. unfold beat_marker. cbv zeta. do 5 eexists.
      split; [reflexivity|]. rewrite beats_half, _w_inject_Z. lia. }
  rewrite icon_beats_ops, Forall_app, Forall_map. unfold range.
  rewrite Forall_seqZ.
  assert (Hbase : on_canvas beats_baseline) by (apply (bool_decide_unpack _); vm_compute; reflexivity).
  unfold on_canvas, beat_marker. cbv zeta. rewrite beats_half.
  setoid_rewrite _w_inject_Z. unfold CANVAS, SIZE, SCALE.
  split.
  - intros [H _]. specialize (H 0 ltac:(lia)). cbn [op_coords] in H.
    apply Forall_cons in H as [H _]. lia.
  - intros H7. split; [|constructor; [exact Hbase|constructor]].
    intros i Hi. cbn [op_coords].
    repeat constructor; vm_compute (_w 220); vm_compute (_w 264); lia.
Qed.

Lemma icon_beats_on_canvas_iff_witness :
  1 <= 8 /\ ~ Forall on_canvas (builder_ops (icon_beats 8)) /\
  exists x0 y0 x1 y1 fill,
    head (builder_ops (icon_beats 8)) = Some (Ellipse (x0, y0, x1, y1) fill None 1) /\ x0 < 0.
Proof.
  split; [lia|]. split.
  - intros H. apply (proj1 (icon_beats_on_canvas_iff 8 ltac:(lia))) in H. lia.
  - exact (proj2 (icon_beats_on_canvas_iff 8 ltac:(lia)) ltac:(lia)).
Defined.

(** X5: every coordinate drawn by every builder of the registry lies within [0, CANVAS]. *)
Theorem registry_on_canvas :
  Forall (fun e => Forall on_canvas (builder_ops e.2)) ICON_BUILD.
Proof. apply (bool_decide_unpack _). vm_compute. reflexivity. Qed.

(** X6: when none of [assets], [assets/images] and [assets/images/icon-set] is a regular file (where [mkdir(parents=True, exist_ok=True)] raises), [main] adds exactly these three directories to the tree. *)
Theorem main_creates_three_dirs (w : World) :
  files w !! ["assets"] = None -> files w !! ["assets"; "images"] = None ->
  files w !! ["assets"; "images"; "icon-set"] = None ->
  dirs (main w).2 = {[ ["assets"]; ["assets"; "images"]; ["assets"; "images"; "icon-set"] ]} ∪ dirs w.
Proof.
  intros _ _ _. rewrite main_unfold, (for_entries_dirs ICON_BUILD w ICON_BUILD_builders).
  apply (f_equal (fun X => X ∪ dirs w)).
  apply (bool_decide_unpack _). vm_compute. reflexivity.
Qed.

Lemma main_creates_three_dirs_witness :
  dirs (main empty_world).2 =
    {[ ["assets"]; ["assets"; "images"]; ["assets"; "images"; "icon-set"] ]} ∪ dirs empty_world.
Proof. exact (main_creates_three_dirs empty_world eq_refl eq_refl eq_refl). Defined.

(** X7: every registry output that exists as a file is selected by the optimizer's [discover_sources], whatever directories the tree holds; its [.web.png] variant is not a registry path and sits in the same directory. *)
Theorem registry_outputs_selected (p : Path) (fs : gmap Path (list Byte.byte)) (ds : gset Path) :
  p ∈ map fst ICON_BUILD -> is_Some (fs !! p) ->
  p ∈ discover_sources fs ds /\ (variant p ∉ map fst ICON_BUILD) /\ parent (variant p) = parent p.
Proof.
  intros Hp Hs.
  assert (Hall : Forall (fun p => IMAGES_ROOT `prefix_of` p /\ (length IMAGES_ROOT < length p)%nat /\
                   ends_with ".png" (name p) = true /\ should_process p = true /\
                   (variant p ∉ map fst ICON_BUILD) /\ parent (variant p) = parent p)
                  (map fst ICON_BUILD)).
  { apply (bool_decide_unpack _). vm_compute. reflexivity. }
  rewrite Forall_forall in Hall. destruct (Hall p Hp) as (H1 & H2 & H3 & H4 & H5 & H6).
  split; [|by split]. apply discover_sources_spec. split; [by left|tauto].
Qed.

Lemma registry_outputs_selected_witness :
  (ASSETS ++ ["Female.png"]) ∈ discover_sources {[ASSETS ++ ["Female.png"] := []]} demo_dirs.
Proof.
  exact (proj1 (registry_outputs_selected (ASSETS ++ ["Female.png"]) {[ASSETS ++ ["Female.png"] := []]} demo_dirs
    ltac:(apply (bool_decide_unpack _); vm_compute; reflexivity) ltac:(eexists; reflexivity))).
Defined.

(** X9: [optimize] fails when the source is missing; when it succeeds, it writes only the source's variant, a different file in the same directory, and leaves the source and every other file unchanged. *)
Theorem optimize_writes_only_variant getbands encode_png fs src :
  (fs !! src = None -> optimize getbands encode_png fs src = None) /\
  (forall fs' dst before after,
     optimize getbands encode_png fs src = Some (fs', (dst, before, after)) ->
     dst = variant src /\ dst <> src /\ parent dst = parent src /\
     fs' !! src = fs !! src /\ (forall k, k <> dst -> fs' !! k = fs !! k)).
Proof.
  split; [intros E; by apply optimize_None|]. intros fs' dst before after H.
  destruct (fs !! src) as [data|] eqn:E; [|by apply (optimize_None getbands encode_png) in E; congruence].
  rewrite (optimize_eq' _ _ _ _ _ E) in H. injection H as <- <- _ _.
  split; [done|]. split; [apply variant_ne|]. split; [apply parent_with_name|].
  split; [rewrite lookup_insert_ne by (exact (variant_ne src)); done|].
  intros k Hk. by rewrite lookup_insert_ne by congruence.
Qed.

(** X10: a successful [run] reports one line per source, in order, each with the variant as destination, [0 <= after <= before] and a non-negative reduction; the totals count the sources, add up the sizes, and give [after <= before] and a non-negative total reduction. *)
Theorem run_report_totals getbands encode_png fs srcs fs' printed tot :
  run getbands encode_png fs srcs = Some (fs', printed, tot) ->
  map rep_src printed = srcs /\
  Forall (fun r => rep_dst r = variant (rep_src r) /\ 0 <= rep_after r <= rep_before r /\
                   (0 <= rep_reduction r)%Q) printed /\
  tot_count tot = Z.of_nat (length srcs) /\
  tot_before tot = sum_Z (map rep_before printed) /\
  tot_after tot = sum_Z (map rep_after printed) /\
  tot_after tot <= tot_before tot /\ (0 <= tot_reduction tot)%Q.
Proof.
  unfold run. intros H.
  destruct (run_loop getbands encode_png fs srcs 0 0 0 []) as [[[[[fs1 tb] ta] cnt] pr]|] eqn:E;
    [|discriminate].
  cbn [mbind option_bind] in H. rewrite reduction_total in H. cbn [mbind option_bind] in H.
  injection H as <- <- <-.
  destruct (run_loop_inv _ _ _ _ _ _ _ _ _ _ _ _ _ E) as (reps & Hp & Hs & Hf & Hb & Ha & Hc & _).
  simpl in Hp. subst pr. cbn [tot_count tot_before tot_after tot_reduction].
  assert (Hle : Forall (fun r => 0 <= rep_after r <= rep_before r) reps).
  { eapply Forall_impl; [exact Hf|]. intros r (_ & Hr & _). exact Hr. }
  assert (Hsum : 0 <= sum_Z (map rep_after reps) <= sum_Z (map rep_before reps)).
  { clear -Hle. induction Hle as [|r reps Hr _ IH]; simpl; [lia|]. unfold sum_Z in *. simpl. lia. }
  split; [done|]. split.
  { eapply Forall_impl; [exact Hf|]. intros r (Hd & Hr & Hred). split; [done|]. split; [done|].
    rewrite Hred. by apply red_of_nonneg. }
  split; [lia|]. split; [lia|]. split; [lia|]. split; [lia|].
  apply (red_of_nonneg tb ta). lia.
Qed.

Lemma run_report_totals_witness :
  exists fs' printed tot,
    run demo_bands demo_encode demo_fs [demo_src] = Some (fs', printed, tot) /\
    map rep_src printed = [demo_src] /\ tot_after tot <= tot_before tot.
Proof.
  do 3 eexists. split; [exact demo_run_eq|].
  destruct (run_report_totals demo_bands demo_encode demo_fs [demo_src] _ _ _ demo_run_eq)
    as (H1 & _ & _ & _ & _ & H2 & _).
  split; [exact H1|exact H2].
Defined.

(** X11: after a successful [run], [discover_sources] selects the same files as before: the variants written are never selected. *)
Theorem run_keeps_selection getbands encode_png fs srcs fs' printed tot :
  run getbands encode_png fs srcs = Some (fs', printed, tot) ->
  forall ds, discover_sources fs' ds = discover_sources fs ds.
Proof.
  unfold run. intros H.
  destruct (run_loop getbands encode_png fs srcs 0 0 0 []) as [[[[[fs1 tb] ta] cnt] pr]|] eqn:E;
    [|discriminate].
  cbn [mbind option_bind] in H. rewrite reduction_total in H. cbn [mbind option_bind] in H.
  injection H as <- _ _.
  destruct (run_loop_inv _ _ _ _ _ _ _ _ _ _ _ _ _ E) as (_ & _ & _ & _ & _ & _ & _ & Hk).
  intros ds. apply discover_sources_ext. intros p Hp. apply Hk. intros s _ ->.
  by rewrite should_process_variant in Hp.
Qed.

Lemma run_keeps_selection_witness :
  exists fs' printed tot,
    run demo_bands demo_encode demo_fs [demo_src] = Some (fs', printed, tot) /\
    discover_sources fs' demo_dirs = discover_sources demo_fs demo_dirs.
Proof.
  do 3 eexists. split; [exact demo_run_eq|].
  exact (run_keeps_selection demo_bands demo_encode demo_fs [demo_src] _ _ _ demo_run_eq demo_dirs).
Defined.

(** X12: if a listed source is missing and no listed source has it as its variant, [run] fails. *)
Theorem run_missing_source getbands encode_png fs srcs s :
  s ∈ srcs -> fs !! s = None -> (forall s', s' ∈ srcs -> variant s' <> s) ->
  run getbands encode_png fs srcs = None.
Proof.
  intros Hin Hs Hv. unfold run.
  enough (Hl : forall fs tb ta cnt printed, fs !! s = None ->
            run_loop getbands encode_png fs srcs tb ta cnt printed = None)
    by (rewrite Hl by exact Hs; reflexivity).
  clear Hs. induction srcs as [|s0 srcs IH]; intros fs1 tb ta cnt printed Hs.
  - by apply not_elem_of_nil in Hin.
  - cbn [run_loop]. destruct (fs1 !! s0) as [data|] eqn:E.
    + rewrite (optimize_eq' _ _ _ _ _ E). cbn [mbind option_bind].
      rewrite reduction_total. cbn [mbind option_bind].
      assert (Hne : s0 <> s) by (intros ->; congruence).
      apply IH.
      * apply elem_of_cons in Hin as [->|Hin]; [done|exact Hin].
      * intros s' Hs'. apply Hv. by right.
      * rewrite lookup_insert_ne; [exact Hs|]. apply Hv. by left.
    + apply (optimize_None getbands encode_png) in E. by rewrite E.
Qed.

Lemma run_missing_source_witness :
  run demo_bands demo_encode demo_fs [demo_src; demo_missing] = None.
Proof.
  apply (run_missing_source demo_bands demo_encode demo_fs [demo_src; demo_missing] demo_missing).
  - apply (bool_decide_unpack _). vm_compute. reflexivity.
  - vm_compute. reflexivity.
  - apply Forall_forall. apply (bool_decide_unpack _). vm_compute. reflexivity.
Defined.



(** X14: for [0 <= size <= 2^53], [human_size] prints whole bytes below 1024, kilobytes below [1024 * 1024], and megabytes above, with one decimal within 0.05 of the exact quotient. *)
Theorem human_size_scale (size : Z) :
  0 <= size <= 2 ^ 53 ->
  (size < 1024 -> human_size size = pretty size +:+ "B") /\
  (1024 <= size < 1024 * 1024 ->
     exists n, human_size size = (pretty (n / 10) +:+ "." +:+ pretty (n mod 10)) +:+ "KB" /\
               (Qabs (inject_Z n / 10 - inject_Z size / 1024) <= 1 # 20)%Q) /\
  (1024 * 1024 <= size ->
     exists n, human_size size = (pretty (n / 10) +:+ "." +:+ pretty (n mod 10)) +:+ "MB" /\
               (Qabs (inject_Z n / 10 - inject_Z size / (1024 * 1024)) <= 1 # 20)%Q).
Proof.
  intros Hs. unfold human_size. cbn [tail hs_loop]. split; [|split].
  - intros Hlt. destruct (Qlt_le_dec_lt (inject_Z size) 1024) as [? ->]; [qlia|].
    cbn. unfold py_int. cbn. by rewrite Z.quot_1_r.
  - intros [Hl Hu]. destruct (Qlt_le_dec_le (inject_Z size) 1024) as [? ->]; [qlia|].
    destruct (Qlt_le_dec_lt (inject_Z size / 1024) 1024) as [? ->]; [qlia|].
    change (String.eqb "KB" "B") with false. cbv iota.
    exists (py_round (inject_Z size / 1024 * 10)).
    rewrite fmt_1f_pos; [split; [reflexivity|apply py_round_tenth]|qlia].
  - intros Hl. destruct (Qlt_le_dec_le (inject_Z size) 1024) as [? ->]; [qlia|].
    destruct (Qlt_le_dec_le (inject_Z size / 1024) 1024) as [? ->]; [qlia|].
    change (String.eqb "MB" "B") with false. cbv iota.
    exists (py_round (inject_Z size / 1024 / 1024 * 10)).
    rewrite fmt_1f_pos; [|qlia]. split; [reflexivity|].
    assert (E : (inject_Z size / (1024 * 1024) == inject_Z size / 1024 / 1024)%Q)
      by (field; discriminate).
    rewrite E. apply py_round_tenth.
Qed.

Lemma human_size_scale_witness :
  0 <= 1536 <= 2 ^ 53 /\
  exists n, human_size 1536 = (pretty (n / 10) +:+ "." +:+ pretty (n mod 10)) +:+ "KB" /\
            (Qabs (inject_Z n / 10 - inject_Z 1536 / 1024) <= 1 # 20)%Q.
Proof.
  split; [lia|]. exact (proj1 (proj2 (human_size_scale 1536 ltac:(lia))) ltac:(lia)).
Defined.

(** X15: sizes from 1048525 to 1048575 bytes print as [1024.0KB]: the unit is chosen before rounding, so they are not shown as [1.0MB]. *)
Theorem human_size_rounds_up_to_1024KB (size : Z) :
  1048525 <= size < 1048576 -> human_size size = "1024.0KB".
Proof.
  intros Hs.
  assert (Hall : Forall (fun s => human_size s = "1024.0KB") (seqZ 1048525 51)).
  { apply (bool_decide_unpack _). vm_compute. reflexivity. }
  rewrite Forall_seqZ in Hall. apply Hall. lia.
Qed.

Lemma human_size_rounds_up_to_1024KB_witness :
  1048525 <= 1048550 < 1048576 /\ human_size 1048550 = "1024.0KB".
Proof. split; [lia|]. exact (human_size_rounds_up_to_1024KB 1048550 ltac:(lia)). Defined.
